(** * tibanna-scheduler: the batch helpers of [helpers.py]

    A shallow embedding of the pure and file-level logic of [helpers.py]
    (failure ledger lookup, batch selection, grouping, post-run audit) and
    the properties its specification states about them.

    Conventions of the embedding:
    - a Python [str] is a [string]; a character is a code point below 256;
    - a Python [int] is a [Z], a [len] is a [nat] injected with [Z.of_nat];
    - a raised exception is the [Raise] branch of [result];
    - the local directory is a finite map from file names to text contents;
      a file is written as it is given (line feed kept, as on POSIX) and
      read with universal newlines;
    - the object store and the filetype helper, which live outside the
      file, are section variables ([S3Client], [get_filetype]);
    - [print] and [warn] notices are not modelled. *)

From Stdlib Require Import ZArith Lia Ascii.
From stdpp Require Import base list strings gmap sets.

Local Open Scope Z_scope.

(** ** Exceptions and the error monad *)

Inductive exn : Type :=
  | FileNotFoundError
  | ZeroDivisionError
  | ValueError
  | KeyError (k : string).

Inductive result (A : Type) : Type :=
  | Ok (a : A)
  | Raise (e : exn).
Arguments Ok {A} a.
Arguments Raise {A} e.

Definition bind {A B} (m : result A) (k : A -> result B) : result B :=
  match m with
  | Ok a => k a
  | Raise e => Raise e
  end.

Notation "x <- m ;; k" := (bind m (fun x => k))
  (at level 100, m at next level, right associativity).

Definition raises {A} (m : result A) : Prop := exists e, m = Raise e.

(** ** Python primitives used by the helpers *)

Module Py.

(** The line feed and carriage return characters, and the double quote. *)
Definition LF : ascii := "010"%char.
Definition CR : ascii := "013"%char.
Definition DQUOTE : ascii := "034"%char.
Definition nl : string := String LF EmptyString.

Definition ascii_eqb (a b : ascii) : bool := bool_decide (a = b).
Definition str_eqb (a b : string) : bool := bool_decide (a = b).

(** [str.isspace] on one character, for code points below 256:
    tab to carriage return, the four separators 28..31, space,
    next-line (133) and no-break space (160). *)
Definition isspace (c : ascii) : bool :=
  let n := nat_of_ascii c in
  ((9 <=? n) && (n <=? 13) || (28 <=? n) && (n <=? 32)
   || (n =? 133) || (n =? 160))%nat.

Fixpoint lstrip (s : string) : string :=
  match s with
  | EmptyString => EmptyString
  | String c r => if isspace c then lstrip r else s
  end.

Fixpoint rstrip (s : string) : string :=
  match s with
  | EmptyString => EmptyString
  | String c r =>
      match rstrip r with
      | EmptyString => if isspace c then EmptyString else String c EmptyString
      | r' => String c r'
      end
  end.

(** [s.strip()] *)
Definition strip (s : string) : string := rstrip (lstrip s).

(** [s.startswith(p)] *)
Fixpoint startswith (s p : string) {struct p} : bool :=
  match p, s with
  | EmptyString, _ => true
  | String a p', String b s' => ascii_eqb a b && startswith s' p'
  | String _ _, EmptyString => false
  end.

(** [p in s] for strings: some suffix of [s] starts with [p]. *)
Fixpoint contains (s p : string) : bool :=
  startswith s p ||
  match s with
  | EmptyString => false
  | String _ r => contains r p
  end.

(** [s.endswith(p)] *)
Fixpoint endswith (s p : string) : bool :=
  str_eqb s p ||
  match s with
  | EmptyString => false
  | String _ r => endswith r p
  end.

(** [s[n:]] for [0 <= n] *)
Fixpoint str_drop (n : nat) (s : string) : string :=
  match n, s with
  | O, _ => s
  | S n', String _ r => str_drop n' r
  | S _, EmptyString => EmptyString
  end.

(** [s.split(sep)[0]] for a non-empty [sep]: the text before the first
    occurrence of [sep], the whole of [s] when there is none. *)
Fixpoint split_head (s sep : string) : string :=
  if startswith s sep then EmptyString
  else match s with
       | EmptyString => EmptyString
       | String c r => String c (split_head r sep)
       end.

(** [s.split("/")[-1]] and [os.path.basename] on POSIX: the text after
    the last slash. *)
Fixpoint last_segment (s : string) : string :=
  match s with
  | EmptyString => EmptyString
  | String c r =>
      if contains r "/" then last_segment r
      else if ascii_eqb c "/" then r else s
  end.

(** [os.path.splitext(p)[0]]: cut at the last dot of the last path
    component, unless only dots precede it there. *)
Fixpoint all_dots (s : string) : bool :=
  match s with
  | EmptyString => true
  | String c r => ascii_eqb c "." && all_dots r
  end.

Fixpoint rsplit_dot (s : string) : option (string * string) :=
  match s with
  | EmptyString => None
  | String c r =>
      match rsplit_dot r with
      | Some (h, t) => Some (String c h, t)
      | None => if ascii_eqb c "." then Some (EmptyString, s) else None
      end
  end.

Definition splitext_root (p : string) : string :=
  let b := last_segment p in
  match rsplit_dot b with
  | Some (h, _) =>
      if all_dots h then p
      else String.substring 0 (String.length p - String.length b + String.length h) p
  | None => p
  end.

(** [a % b], with Python's sign convention (that of the divisor). *)
Definition mod_ (a b : Z) : result Z :=
  if b =? 0 then Raise ZeroDivisionError else Ok (a mod b).

(** [range(start, stop, step)], by the length CPython computes. *)
Definition range_len (start stop step : Z) : Z :=
  if 0 <? step then
    if start <? stop then (stop - start - 1) / step + 1 else 0
  else
    if stop <? start then (start - stop - 1) / (- step) + 1 else 0.

Definition range (start stop step : Z) : result (list Z) :=
  if step =? 0 then Raise ValueError
  else Ok (map (fun k : nat => start + Z.of_nat k * step)
               (seq 0 (Z.to_nat (range_len start stop step)))).

(** Slice bounds: a negative index counts from the end, and both ends
    are clipped to the list. *)
Definition clip (n : nat) (i : Z) : nat :=
  let i' := if i <? 0 then i + Z.of_nat n else i in
  Z.to_nat (Z.min (Z.max i' 0) (Z.of_nat n)).

(** [l[lo:hi]] *)
Definition slice {A} (l : list A) (lo hi : Z) : list A :=
  let n := length l in
  take (clip n hi - clip n lo)%nat (drop (clip n lo) l).

(** [l[:hi]] *)
Definition slice_to {A} (l : list A) (hi : Z) : list A :=
  take (clip (length l) hi) l.

(** Reading a file opened in text mode: universal newlines turn
    "\r\n" and a lone "\r" into "\n". *)
Fixpoint translate_newlines (s : string) : string :=
  match s with
  | EmptyString => EmptyString
  | String c r =>
      if ascii_eqb c CR then
        match r with
        | String c' r' =>
            if ascii_eqb c' LF then String LF (translate_newlines r')
            else String LF (translate_newlines r)
        | EmptyString => String LF EmptyString
        end
      else String c (translate_newlines r)
  end.

(** The lines of a text, each with its terminating "\n" (the last one
    may lack it): what iterating a file or [readlines] yields. *)
Fixpoint lines (s : string) : list string :=
  match s with
  | EmptyString => []
  | String c r =>
      if ascii_eqb c LF then String c EmptyString :: lines r
      else match lines r with
           | [] => [String c EmptyString]
           | l :: ls => String c l :: ls
           end
  end.

End Py.

(** ** The local directory *)

Definition FAILED_TXT : string := "failed.txt".
Definition FAILED_RUNS_TXT : string := "failed_runs.txt".

(** [open(name, "r")] followed by reading the lines. *)
Definition read_lines (fs : gmap string string) (name : string) : result (list string) :=
  match fs !! name with
  | Some content => Ok (Py.lines (Py.translate_newlines content))
  | None => Raise FileNotFoundError
  end.

(** ** [file_in_failed] *)

(** The loop [for line in file: if line.strip() == subject: return True]. *)
Fixpoint scan_lines (ls : list string) (subject : string) : bool :=
  match ls with
  | [] => false
  | line :: rest =>
      if Py.str_eqb (Py.strip line) subject then true
      else scan_lines rest subject
  end.

Definition file_in_failed (fs : gmap string string) (subject : string) : result bool :=
  ls <- read_lines fs FAILED_TXT ;;
  Ok (scan_lines ls subject).

(** ** The object store client *)

(** The calls of the boto3 client that the helpers use. A listing is the
    sequence of keys under ['Contents'], absent when the response has no
    such entry; a fetched body is already decoded to text. *)
Class S3Client (S : Type) : Type := {
  list_objects_v2 : S -> string -> string -> option (list string);
  get_object : S -> string -> string -> string;
  put_object : S -> string -> string -> S;
  copy_object : S -> string -> string -> string -> string -> S;
  delete_object : S -> string -> string -> S
}.

(** An in-memory store, a list of (bucket, key, body) entries, to run the
    helpers on concrete inputs. *)
Module MemS3.

Definition store : Type := list (string * string * string).

Definition is_at (bucket key : string) (o : string * string * string) : bool :=
  Py.str_eqb o.1.1 bucket && Py.str_eqb o.1.2 key.

Definition keys_under (st : store) (bucket prefix : string) : list string :=
  map (fun o => o.1.2)
      (filter (fun o => Py.str_eqb o.1.1 bucket && Py.startswith o.1.2 prefix = true) st).

Definition body_of (st : store) (bucket key : string) : string :=
  match filter (fun o => is_at bucket key o = true) st with
  | o :: _ => o.2
  | [] => EmptyString
  end.

Definition remove (st : store) (bucket key : string) : store :=
  filter (fun o => is_at bucket key o = false) st.

#[global] Instance client : S3Client store := {|
  list_objects_v2 st bucket prefix :=
    match keys_under st bucket prefix with
    | [] => None
    | ks => Some ks
    end;
  get_object := body_of;
  put_object st bucket key := remove st bucket key ++ [(bucket, key, EmptyString)];
  copy_object st bucket key src_bucket src_key :=
    remove st bucket key ++ [(bucket, key, body_of st src_bucket src_key)];
  delete_object := remove
|}.

End MemS3.

(** ** Nested lists of file names *)

(** What [prepend_path] and [basename] walk: a string, or a list of such
    values. *)
#[warnings="-register-all"]
Inductive nested : Type :=
  | Str (s : string)
  | Lst (items : list nested).

(** A list of groups of strings, as the Python value it is. *)
Definition of_groups (groups : list (list string)) : nested :=
  Lst (map (fun g => Lst (map Str g)) groups).

(** The strings of a nested list, left to right. *)
Fixpoint flatten (v : nested) : list string :=
  match v with
  | Str s => [s]
  | Lst items => concat (map flatten items)
  end.

(** ** Constants of the run audit *)

Definition POSTRUN_JSON : string := ".postrun.json".

(** The success marker, [md5sum] between double quotes, a colon and an
    opening double quote. *)
Definition MD5SUM_MARKER : string :=
  String Py.DQUOTE ("md5sum" +:+ String Py.DQUOTE (":" +:+ String Py.DQUOTE EmptyString)).

Section Helpers.

Context {S : Type} `{S3Client S}.

(** [extract_subjects]: the matches of the subject pattern, by the
    regular expression engine. *)
Variable extract_subjects : string -> list string.

(** [get_filetype] of the module [filetypes]: the file type tag and the
    index extension ([None] when the type has no index). *)
Variable get_filetype : list string -> string * option string.

(** *** [get_subject_completed_set] *)

Definition get_subject_completed_set (s3 : S) (outbucket prefix : string) : gset string :=
  match list_objects_v2 s3 outbucket prefix with
  | Some contents =>
      foldl (fun completed_set key =>
               if Py.endswith key ".tar"
               then foldl (fun acc s => acc ∪ {[ s ]}) completed_set (extract_subjects key)
               else completed_set)
            ∅ contents
  | None => ∅
  end.

(** *** [resolve_inputs] *)

(** [row[k]] on a row of the manifest reader *)
Definition getitem (row : gmap string string) (k : string) : result string :=
  match row !! k with
  | Some v => Ok v
  | None => Raise (KeyError k)
  end.

(** One pass of the loop body, before the test of the batch size. *)
Definition visit_row (fs : gmap string string) (completed_set : gset string)
    (exclude_failed : bool) (row : gmap string string) (locations : list string)
    : result (list string) :=
  subject <- getitem row "Subject" ;;
  if bool_decide (subject ∉ completed_set) then
    location <- getitem row "location" ;;
    if exclude_failed then
      failed <- file_in_failed fs subject ;;
      if failed : bool then Ok locations else Ok (locations ++ [location])
    else Ok (locations ++ [location])
  else Ok locations.

(** The loop over the rows, with its [break]. *)
Fixpoint scan_rows (fs : gmap string string) (completed_set : gset string)
    (batch_size : Z) (exclude_failed : bool)
    (rows : list (gmap string string)) (locations : list string)
    : result (list string) :=
  match rows with
  | [] => Ok locations
  | row :: rest =>
      locations' <- visit_row fs completed_set exclude_failed row locations ;;
      if Z.of_nat (length locations') =? batch_size then Ok locations'
      else scan_rows fs completed_set batch_size exclude_failed rest locations'
  end.

(** The [with] block: the completed set, then the scan from an empty
    list. The manifest is given as the rows its reader yields, in file
    order. *)
Definition select_locations (s3 : S) (fs : gmap string string)
    (rows : list (gmap string string)) (batch_size : Z) (outbucket : string)
    (allow_existing exclude_failed : bool) : result (list string) :=
  let completed_set :=
    if negb allow_existing
    then get_subject_completed_set s3 outbucket "/mnt/data1/out/"
    else ∅ in
  scan_rows fs completed_set batch_size exclude_failed rows [].

Definition resolve_inputs (s3 : S) (fs : gmap string string)
    (rows : list (gmap string string)) (batch_size : Z) (outbucket : string)
    (cores_per_inst : Z) (allow_existing exclude_failed : bool)
    : result (list string * list string) :=
  locations <- select_locations s3 fs rows batch_size outbucket
                 allow_existing exclude_failed ;;
  r <- Py.mod_ (Z.of_nat (length locations)) cores_per_inst ;;
  let locations := Py.slice_to locations (Z.of_nat (length locations) - r) in
  let filenames := map Py.last_segment locations in
  Ok (locations, filenames).

(** *** [prepend_path] and [basename] on nested lists *)

Fixpoint prepend_path (nested_list : nested) (path : string) : nested :=
  match nested_list with
  | Str s => Str (path +:+ s)
  | Lst items => Lst (map (fun item => prepend_path item path) items)
  end.

Fixpoint basename (nested_list : nested) : nested :=
  match nested_list with
  | Str s => Str (Py.splitext_root (Py.last_segment s))
  | Lst items => Lst (map basename items)
  end.

(** *** [group_inputs] *)

(** [[filenames[i:i+items_per_list] for i in range(0, len(filenames), items_per_list)]] *)
Definition chunk (filenames : list string) (items_per_list : Z) : result (list (list string)) :=
  starts <- Py.range 0 (Z.of_nat (length filenames)) items_per_list ;;
  Ok (map (fun i => Py.slice filenames i (i + items_per_list)) starts).

Definition group_inputs (filenames : list string) (items_per_list : Z)
    : result (nested * nested * option nested) :=
  let '(ftype, idx_ext) := get_filetype filenames in
  grouped_inputs <- chunk filenames items_per_list ;;
  let grouped_input_paths := prepend_path (of_groups grouped_inputs) (ftype +:+ "s/") in
  let subjects := basename (of_groups grouped_inputs) in
  match idx_ext with
  | Some ext =>
      if Py.str_eqb ext EmptyString then Ok (subjects, grouped_input_paths, None)
      else
        let idx_filenames := map (fun file => file +:+ "." +:+ ext) filenames in
        starts <- Py.range 0 (Z.of_nat (length filenames)) items_per_list ;;
        let grouped_idx :=
          map (fun i => Py.slice idx_filenames i (i + items_per_list)) starts in
        let grouped_idx_paths := prepend_path (of_groups grouped_idx) (ftype +:+ "sidx/") in
        Ok (subjects, grouped_input_paths, Some grouped_idx_paths)
  | None => Ok (subjects, grouped_input_paths, None)
  end.

(** *** Moving the logs of a job *)

Definition move_logs_to_folder (s3 : S) (jobid_prefix outbucket : string) : S :=
  let s3 := put_object s3 outbucket (jobid_prefix +:+ "/") in
  match list_objects_v2 s3 outbucket (jobid_prefix +:+ ".") with
  | Some contents =>
      foldl (fun s3 file_name =>
               let new_key := jobid_prefix +:+ "/" +:+ file_name in
               let s3 := copy_object s3 outbucket new_key outbucket file_name in
               delete_object s3 outbucket file_name)
            s3 contents
  | None => s3
  end.

Definition move_logs_to_root (s3 : S) (jobid_prefix outbucket : string) : S :=
  match list_objects_v2 s3 outbucket (jobid_prefix +:+ "/" +:+ jobid_prefix +:+ ".") with
  | Some contents =>
      foldl (fun s3 file_name =>
               let new_key := Py.last_segment file_name in
               let s3 := copy_object s3 outbucket new_key outbucket file_name in
               delete_object s3 outbucket file_name)
            s3 contents
  | None => s3
  end.

(** *** [process_postrun_files] *)

(** The order in which a Python [set] of strings is iterated: some
    enumeration of its elements, each once. *)
Variable iter_set : gset string -> list string.

(** The loop over the listed keys that fills [failed_job_ids]. *)
Definition collect_failed (s3 : S) (outbucket : string) (contents : list string)
    : gset string :=
  foldl (fun failed_job_ids key =>
           if Py.endswith key POSTRUN_JSON then
             let content := get_object s3 outbucket key in
             if negb (Py.contains content MD5SUM_MARKER)
             then failed_job_ids ∪ {[ Py.split_head key POSTRUN_JSON ]}
             else failed_job_ids
           else failed_job_ids)
        ∅ contents.

(** [open(name, "a")] and one [write] per element *)
Definition append_lines (fs : gmap string string) (name : string) (ids : list string)
    : gmap string string :=
  <[ name := default EmptyString (fs !! name)
             +:+ String.concat EmptyString (map (fun job_id => job_id +:+ Py.nl) ids) ]> fs.

(** [open(name, "w")] and [writelines] *)
Definition write_lines (fs : gmap string string) (name : string) (ls : list string)
    : gmap string string :=
  <[ name := String.concat EmptyString ls ]> fs.

Definition process_postrun_files (s3 : S) (fs : gmap string string)
    (jobid_prefix outbucket : string) : result (S * gmap string string) :=
  let s3 := move_logs_to_root s3 jobid_prefix outbucket in
  let contents := default [] (list_objects_v2 s3 outbucket (jobid_prefix +:+ ".")) in
  let failed_job_ids := collect_failed s3 outbucket contents in
  let fs := append_lines fs FAILED_RUNS_TXT (iter_set failed_job_ids) in
  ls <- read_lines fs FAILED_RUNS_TXT ;;
  let fs := write_lines fs FAILED_RUNS_TXT (iter_set (list_to_set ls)) in
  let s3 := move_logs_to_folder s3 jobid_prefix outbucket in
  Ok (s3, fs).

End Helpers.

(** ** Notions of the specification, to compare the code with *)

(** A line without its terminator. *)
Fixpoint chomp (line : string) : string :=
  match line with
  | EmptyString => EmptyString
  | String c r =>
      match r with
      | EmptyString => if Py.ascii_eqb c Py.LF then EmptyString else line
      | _ => String c (chomp r)
      end
  end.

(** The full lines of a ledger text, as the specification counts them:
    each line of the file, terminator excluded, nothing else removed. *)
Definition ledger_lines (content : string) : list string :=
  map chomp (Py.lines (Py.translate_newlines content)).

(** Stripping a known prefix, [str.removeprefix]. *)
Definition removeprefix (s p : string) : string :=
  if Py.startswith s p then Py.str_drop (String.length p) s else s.

(** Stripping a known suffix, [str.removesuffix]. *)
Fixpoint removesuffix (s p : string) : string :=
  if Py.str_eqb s p then EmptyString
  else match s with
       | EmptyString => EmptyString
       | String c r => if Py.endswith r p then String c (removesuffix r p) else s
       end.

(** A subject that the failure check finds: it equals some line of the
    ledger once the white space around that line is removed. *)
Definition recorded (fs : gmap string string) (subject : string) : Prop :=
  exists content line,
    fs !! FAILED_TXT = Some content /\
    line ∈ Py.lines (Py.translate_newlines content) /\
    Py.strip line = subject.

(** A row of the manifest with its two columns. *)
Definition mkrow (location subject : string) : gmap string string :=
  <[ "location" := location ]> (<[ "Subject" := subject ]> ∅).

(** A row contributes [loc]: it has both columns, its subject is not in
    the completed set and, when failures are excluded, the failure check
    answered no. *)
Definition picked (fs : gmap string string) (completed_set : gset string)
    (exclude_failed : bool) (loc : string) (row : gmap string string) : Prop :=
  row !! "location" = Some loc /\
  exists subject, row !! "Subject" = Some subject /\
    (subject ∉ completed_set) /\
    (exclude_failed = true -> file_in_failed fs subject = Ok false).

(** A key adds its job identifier to the failed set when it ends in
    [.postrun.json] and its content lacks the marker. *)
Definition judged_failed {S : Type} `{S3Client S} (s3 : S) (outbucket key : string) : Prop :=
  Py.endswith key POSTRUN_JSON = true /\
  Py.contains (get_object s3 outbucket key) MD5SUM_MARKER = false.

(** The number of places of [s] at which [p] starts. *)
Fixpoint occurrences (s p : string) : nat :=
  ((if Py.startswith s p then 1 else 0) +
   match s with
   | EmptyString => 0
   | String _ r => occurrences r p
   end)%nat.

(** A text without line feed and carriage return. *)
Fixpoint no_newline (s : string) : bool :=
  match s with
  | EmptyString => true
  | String c r => negb (Py.ascii_eqb c Py.CR) && negb (Py.ascii_eqb c Py.LF) && no_newline r
  end.

(** A text that is empty or ends with a line feed: appending to it starts
    a new line. *)
Fixpoint ends_lf (s : string) : bool :=
  match s with
  | EmptyString => true
  | String c r =>
      match r with
      | EmptyString => Py.ascii_eqb c Py.LF
      | _ => ends_lf r
      end
  end.

(** A terminated line: a text without newline characters, then one line
    feed. *)
Definition terminated_line (line : string) : Prop :=
  exists body, line = body +:+ Py.nl /\ no_newline body = true.

(** The failed set of one audit: the keys listed under the job prefix
    once the logs are back at the root, run through the collecting loop. *)
Definition failed_job_ids_of {S : Type} `{S3Client S} (s3 : S)
    (jobid_prefix outbucket : string) : gset string :=
  let s3 := move_logs_to_root s3 jobid_prefix outbucket in
  collect_failed s3 outbucket
    (default [] (list_objects_v2 s3 outbucket (jobid_prefix +:+ "."))).

(** ** Sample inputs *)

Module Sample.

(** The three-row manifest of the specification's example. *)
Definition rows : list (gmap string string) :=
  [ mkrow "s3://b/crams/ABC-RS1.cram" "ABC-RS1";
    mkrow "s3://b/crams/DEF-RS2.cram" "DEF-RS2";
    mkrow "s3://b/crams/GHI-RS3.cram" "GHI-RS3" ].

(** A ledger that lists the second subject. *)
Definition ledger : gmap string string :=
  <[ FAILED_TXT := "DEF-RS2" +:+ Py.nl ]> ∅.

(** A one-row manifest whose subject starts with a blank, and a ledger
    that holds exactly that line. *)
Definition blank_rows : list (gmap string string) :=
  [ mkrow "s3://b/crams/x.cram" " x" ].
Definition blank_ledger : gmap string string :=
  <[ FAILED_TXT := " x" +:+ Py.nl ]> ∅.

(** Three alignment files, and a filetype helper that calls every list
    [cram] with index extension [crai]. *)
Definition names : list string := ["a.cram"; "b.cram"; "c.cram"].
Definition cram_type (filenames : list string) : string * option string :=
  ("cram", Some "crai").

(** The two status descriptors of the specification's example, in the
    folder of job prefix [j]: the first has the marker, the second not. *)
Definition q : string := String Py.DQUOTE EmptyString.
Definition audit_store : MemS3.store :=
  [ ("out", "j/j.a.postrun.json", "{" +:+ q +:+ "md5sum" +:+ q +:+ ":" +:+ q +:+ "abc123" +:+ q +:+ "}");
    ("out", "j/j.b.postrun.json", "{" +:+ q +:+ "other" +:+ q +:+ ":1}") ].

(** A store with one failed descriptor whose key repeats the suffix. *)
Definition twice_key : string := "j.c.postrun.json.postrun.json".
Definition twice_store : MemS3.store := [ ("out", twice_key, "{}") ].

(** A directory whose failure ledger is empty. *)
Definition empty_ledger : gmap string string := <[ FAILED_TXT := EmptyString ]> ∅.

(** No object in the store, no subject in any key. *)
Definition empty_store : MemS3.store := [].
Definition no_subjects (key : string) : list string := [].

End Sample.

(** ** More of the helpers *)

Section Housekeeping.

Context {S : Type} `{S3Client S}.
Variable get_filetype : list string -> string * option string.
Variable iter_set : gset string -> list string.

(** *** [remove_inputs_from_file] *)

(** A deletion that fails is caught and warned about, and the loop goes
    on; the store call is total here, so nothing is caught. *)
Definition remove_inputs_from_file (s3 : S) (filenames : list string)
    (inbucket : string) : S :=
  let '(ftype, idx_ext) := get_filetype filenames in
  foldl (fun s3 file =>
           let s3 := delete_object s3 inbucket (ftype +:+ "s/" +:+ file) in
           match idx_ext with
           | Some ext =>
               if Py.str_eqb ext EmptyString then s3
               else delete_object s3 inbucket
                      (ftype +:+ "sidx/" +:+ file +:+ "." +:+ ext)
           | None => s3
           end)
        s3 filenames.

(** *** [get_unique_job_ids_from_s3_bucket] *)

(** The loop that fills [job_ids]. *)
Definition collect_job_ids (contents : list string) : gset string :=
  foldl (fun job_ids key =>
           if Py.endswith key POSTRUN_JSON
           then job_ids ∪ {[ Py.split_head key POSTRUN_JSON ]}
           else job_ids)
        ∅ contents.

(** [response['Contents']] is read without a default. *)
Definition get_unique_job_ids_from_s3_bucket (s3 : S)
    (bucket_name jobid_prefix : string) : result (list string) :=
  match list_objects_v2 s3 bucket_name jobid_prefix with
  | Some contents => Ok (iter_set (collect_job_ids contents))
  | None => Raise (KeyError "Contents")
  end.

End Housekeeping.

(** ** What the helpers rely on in the object store *)

(** A copy gives the target the body of the source, and a copy, a delete
    or a put leaves the body under every other key as it was. *)
Class S3Laws (S : Type) `{S3Client S} : Prop := {
  get_after_copy : forall s b k sb sk,
    get_object (copy_object s b k sb sk) b k = get_object s sb sk;
  get_other_copy : forall s b k sb sk k',
    k' <> k -> get_object (copy_object s b k sb sk) b k' = get_object s b k';
  get_other_delete : forall s b k k',
    k' <> k -> get_object (delete_object s b k) b k' = get_object s b k';
  get_other_put : forall s b k k',
    k' <> k -> get_object (put_object s b k) b k' = get_object s b k'
}.

(** The shape of a nested list: every string replaced by the empty one. *)
Fixpoint erase (v : nested) : nested :=
  match v with
  | Str _ => Str EmptyString
  | Lst items => Lst (map erase items)
  end.

(** ** More sample inputs *)

Module Sample2.

(** Two logs of job prefix [j] at the root of the bucket. *)
Definition root_logs : MemS3.store :=
  [ ("out", "j.a.log", "first"); ("out", "j.b.log", "second") ].

(** The same two logs inside the folder of the job. *)
Definition folder_logs : MemS3.store :=
  [ ("out", "j/j.a.log", "first"); ("out", "j/j.b.log", "second") ].

(** A failed-runs ledger with a repeated line. *)
Definition runs_ledger : gmap string string :=
  <[ FAILED_RUNS_TXT := "j.b" +:+ Py.nl +:+ "k.z" +:+ Py.nl +:+ "j.b" +:+ Py.nl ]> ∅.

End Sample2.

(** ** [extract_subjects] *)

(** The pattern is letters and hyphens, at least one; then [RS]; then
    digits and hyphens, at least one, the last of them not a hyphen.
    [findall] tries every start from the left and goes on behind a match;
    at one start the first part is taken as long as possible and given
    back character by character until the rest matches, and so is the
    last part. Characters are code points below 256, where the digits
    are [0] to [9]. *)
Module Re.

(** The class of letters and the hyphen *)
Definition is_alpha_hyphen (c : ascii) : bool :=
  let n := nat_of_ascii c in
  ((65 <=? n) && (n <=? 90) || (97 <=? n) && (n <=? 122) || (n =? 45))%nat.

(** The class of digits and the hyphen *)
Definition is_digit_hyphen (c : ascii) : bool :=
  let n := nat_of_ascii c in
  ((48 <=? n) && (n <=? 57) || (n =? 45))%nat.

Definition is_hyphen (c : ascii) : bool := (nat_of_ascii c =? 45)%nat.

(** The length of the longest prefix in a class *)
Fixpoint span (p : ascii -> bool) (s : string) : nat :=
  match s with
  | EmptyString => O
  | String c r => if p c then S (span p r) else O
  end.

(** The last part at the start of [t]: the length of the longest run of
    digits and hyphens whose last character is not a hyphen. *)
Fixpoint digits_end (t : string) : option nat :=
  match t with
  | EmptyString => None
  | String c r =>
      if is_digit_hyphen c then
        match digits_end r with
        | Some d => Some (S d)
        | None => if is_hyphen c then None else Some 1%nat
        end
      else None
  end.

(** The first part with [a] characters, then with fewer: the length of
    the match at the start of [s], if any. *)
Fixpoint try_prefix (s : string) (a : nat) : option nat :=
  match a with
  | O => None
  | S a' =>
      let rest := Py.str_drop a s in
      if Py.startswith rest "RS" then
        match digits_end (Py.str_drop 2 rest) with
        | Some d => Some (a + 2 + d)%nat
        | None => try_prefix s a'
        end
      else try_prefix s a'
  end.

Definition match_at (s : string) : option nat :=
  try_prefix s (span is_alpha_hyphen s).

(** [findall], with the number of characters still inside the last
    match. *)
Fixpoint findall_skip (skip : nat) (s : string) : list string :=
  match s with
  | EmptyString => []
  | String _ r =>
      match skip with
      | S k => findall_skip k r
      | O =>
          match match_at s with
          | Some n => String.substring 0 n s :: findall_skip (n - 1) r
          | None => findall_skip 0 r
          end
      end
  end.

Definition extract_subjects (text : string) : list string :=
  findall_skip 0 text.

End Re.

(** Every character of a text is in a class. *)
Fixpoint all_chars (p : ascii -> bool) (s : string) : bool :=
  match s with
  | EmptyString => true
  | String c r => p c && all_chars p r
  end.

(** ** Facts about the Python primitives *)

Lemma str_eqb_true (a b : string) : Py.str_eqb a b = true <-> a = b.
Proof. unfold Py.str_eqb. apply bool_decide_eq_true. Qed.

Lemma str_eqb_false (a b : string) : Py.str_eqb a b = false <-> a <> b.
Proof. unfold Py.str_eqb. apply bool_decide_eq_false. Qed.

Lemma ascii_eqb_true (a b : ascii) : Py.ascii_eqb a b = true <-> a = b.
Proof. unfold Py.ascii_eqb. apply bool_decide_eq_true. Qed.

Lemma str_app_cons (a : ascii) (s t : string) : String a s +:+ t = String a (s +:+ t).
Proof. reflexivity. Qed.

Lemma str_app_nil_l (s : string) : EmptyString +:+ s = s.
Proof. reflexivity. Qed.

Lemma str_app_nil_r (s : string) : s +:+ EmptyString = s.
Proof. induction s as [|a s IH]; [done|]. by rewrite str_app_cons, IH. Qed.

Lemma str_app_assoc (s t u : string) : (s +:+ t) +:+ u = s +:+ (t +:+ u).
Proof. induction s as [|a s IH]; [done|]. by rewrite !str_app_cons, IH. Qed.

Lemma str_app_length (s t : string) :
  String.length (s +:+ t) = (String.length s + String.length t)%nat.
Proof. induction s as [|a s IH]; [done|]. rewrite str_app_cons. simpl. by rewrite IH. Qed.

Lemma bind_ok {A B} (m : result A) (k : A -> result B) (b : B) :
  bind m k = Ok b -> exists a, m = Ok a /\ k a = Ok b.
Proof. destruct m as [a|e]; simpl; [eauto | discriminate]. Qed.

Lemma clip_inside (n : nat) (i : Z) : 0 <= i <= Z.of_nat n -> Py.clip n i = Z.to_nat i.
Proof.
  intros Hi. unfold Py.clip.
  destruct (Z.ltb_spec i 0) as [Hneg|_]; [lia|].
  f_equal. lia.
Qed.

Lemma clip_above (n : nat) (i : Z) : Z.of_nat n <= i -> Py.clip n i = n.
Proof.
  intros Hi. unfold Py.clip.
  destruct (Z.ltb_spec i 0) as [Hneg|_]; [lia|].
  rewrite Z.min_r by lia. apply Nat2Z.id.
Qed.

Lemma scan_lines_true (ls : list string) (subject : string) :
  scan_lines ls subject = true <-> exists line, line ∈ ls /\ Py.strip line = subject.
Proof.
  induction ls as [|l ls IH]; simpl.
  - split; [discriminate|]. intros (line & Hin & _). inversion Hin.
  - destruct (Py.str_eqb (Py.strip l) subject) eqn:E.
    + apply str_eqb_true in E. split; [|done].
      intros _. exists l. split; [left | done].
    + apply str_eqb_false in E. rewrite IH. split.
      * intros (line & Hin & Hs). exists line. split; [by right | done].
      * intros (line & Hin & Hs). inversion Hin; subst; [done | eauto].
Qed.

(** ** The failure check *)

(** C6, as the code has it: on a ledger that exists the check returns, and
    it answers true exactly when the subject equals some line of the
    ledger after the white space at both ends of that line (terminator
    included) has been stripped. *)
Theorem file_in_failed_iff_stripped_line (fs : gmap string string) (content subject : string) :
  exists b, file_in_failed (<[ FAILED_TXT := content ]> fs) subject = Ok b /\
    (b = true <->
     exists line, line ∈ Py.lines (Py.translate_newlines content) /\ Py.strip line = subject).
Proof.
  unfold file_in_failed, read_lines. rewrite lookup_insert_eq. simpl.
  eexists. split; [reflexivity|]. apply scan_lines_true.
Qed.

(** A ledger line that starts with a blank is a full line and is not
    found under its own text; a line padded with a blank is found under a
    subject that is not the full line. *)
Example file_in_failed_blank_cases :
  (" a" ∈ ledger_lines (" a" +:+ Py.nl) /\
   file_in_failed (<[ FAILED_TXT := " a" +:+ Py.nl ]> ∅) " a" = Ok false) /\
  (("a" ∉ ledger_lines ("a " +:+ Py.nl)) /\
   file_in_failed (<[ FAILED_TXT := "a " +:+ Py.nl ]> ∅) "a" = Ok true).
Proof.
  split; split.
  - vm_compute. left.
  - vm_compute. reflexivity.
  - intros Hin. vm_compute in Hin. apply list_elem_of_singleton in Hin. discriminate.
  - vm_compute. reflexivity.
Qed.

(** C6, as the specification words it, fails: it is not so that the check
    answers true exactly for the full lines of the ledger. The subject
    " a" is a full line of the ledger made of that one line, and the
    check answers false for it. *)
Lemma file_in_failed_not_exact_line :
  ~ (forall (fs : gmap string string) (content subject : string),
       file_in_failed (<[ FAILED_TXT := content ]> fs) subject = Ok true <->
       subject ∈ ledger_lines content).
Proof.
  intros Hclaim.
  specialize (Hclaim ∅ (" a" +:+ Py.nl) " a").
  assert (Hin : " a" ∈ ledger_lines (" a" +:+ Py.nl)) by (vm_compute; left).
  apply Hclaim in Hin. vm_compute in Hin. discriminate.
Qed.

Lemma file_in_failed_recorded (fs : gmap string string) (subject : string) :
  file_in_failed fs subject = Ok true <-> recorded fs subject.
Proof.
  unfold file_in_failed, read_lines, recorded.
  destruct (fs !! FAILED_TXT) as [content|] eqn:E; simpl.
  - split.
    + intros [= Hs]. apply scan_lines_true in Hs as (line & ? & ?). eauto.
    + intros (c & line & [= <-] & Hin & Hs). f_equal.
      apply scan_lines_true. eauto.
  - split; [discriminate|]. intros (c & line & [=] & _).
Qed.

(** ** Full lines and the failure check *)

Lemma chomp_cases (line : string) :
  line = chomp line \/ line = chomp line +:+ Py.nl.
Proof.
  induction line as [|c r IH]; [by left|].
  destruct r as [|c' r'].
  - simpl. destruct (Py.ascii_eqb c Py.LF) eqn:E; [|by left].
    apply ascii_eqb_true in E as ->. by right.
  - change (chomp (String c (String c' r'))) with (String c (chomp (String c' r'))).
    rewrite str_app_cons. destruct IH as [IH|IH]; [left | right]; by rewrite <- IH.
Qed.

Lemma rstrip_eq (c : ascii) (r : string) :
  Py.rstrip (String c r)
  = match Py.rstrip r with
    | EmptyString => if Py.isspace c then EmptyString else String c EmptyString
    | r' => String c r'
    end.
Proof. reflexivity. Qed.

Lemma rstrip_line (s : string) : Py.rstrip (s +:+ Py.nl) = Py.rstrip s.
Proof.
  induction s as [|c r IH]; [done|].
  by rewrite str_app_cons, !rstrip_eq, IH.
Qed.

Lemma strip_line (s : string) : Py.strip (s +:+ Py.nl) = Py.strip s.
Proof.
  unfold Py.strip. induction s as [|c r IH]; [done|].
  rewrite str_app_cons. simpl. destruct (Py.isspace c); [done|].
  by rewrite <- str_app_cons, rstrip_line.
Qed.

(** A subject without white space around it that is a full line of the
    ledger is found by the failure check. *)
Lemma recorded_full_line (fs : gmap string string) (content subject : string) :
  fs !! FAILED_TXT = Some content ->
  subject ∈ ledger_lines content ->
  Py.strip subject = subject ->
  recorded fs subject.
Proof.
  intros Hfs Hin Hclean. unfold ledger_lines in Hin.
  apply list_elem_of_fmap in Hin as (line & Hs & Hline).
  exists content, line. split; [done|]. split; [done|].
  destruct (chomp_cases line) as [Heq|Heq]; rewrite Heq, <- Hs; [done|].
  by rewrite strip_line.
Qed.

(** ** The batch selector *)

Section BatchSelector.

Context {S : Type} `{S3Client S}.
Variable extract_subjects : string -> list string.

Lemma visit_row_cases fs cs ef row locs locs' :
  visit_row fs cs ef row locs = Ok locs' ->
  locs' = locs \/ exists loc, locs' = locs ++ [loc] /\ picked fs cs ef loc row.
Proof.
  unfold visit_row, getitem, picked.
  destruct (row !! "Subject") as [subject|] eqn:Hs; simpl; [|discriminate].
  case_bool_decide as Hc; [|intros [= <-]; by left].
  destruct (row !! "location") as [loc|] eqn:Hl; simpl; [|discriminate].
  destruct ef.
  - destruct (file_in_failed fs subject) as [[|]|e] eqn:Hf; simpl;
      [intros [= <-]; by left | | discriminate].
    intros [= <-]. right. exists loc. eauto 10.
  - intros [= <-]. right. exists loc. split; [done|]. split; [done|].
    exists subject. split; [done|]. split; [done|]. discriminate.
Qed.

Lemma visit_row_length fs cs ef row locs locs' :
  visit_row fs cs ef row locs = Ok locs' ->
  (length locs <= length locs' <= length locs + 1)%nat.
Proof.
  intros Hv. apply visit_row_cases in Hv as [->|(loc & -> & _)].
  - lia.
  - rewrite length_app. simpl. lia.
Qed.

(** The scan only appends, and what it appends comes from rows that
    were picked, in the order of the manifest. *)
Lemma scan_rows_selected fs cs b ef rows acc out :
  scan_rows fs cs b ef rows acc = Ok out ->
  exists selected added,
    out = acc ++ added /\ sublist selected rows /\
    Forall2 (picked fs cs ef) added selected.
Proof.
  revert acc. induction rows as [|row rest IH]; intros acc; simpl.
  - intros [= <-]. exists [], []. rewrite app_nil_r.
    split; [done|]. split; [constructor | constructor].
  - intros Hb. apply bind_ok in Hb as (acc' & Hv & Hrest).
    assert (Hsel : exists selected added,
               out = acc' ++ added /\ sublist selected rest /\
               Forall2 (picked fs cs ef) added selected).
    { destruct (Z.of_nat (length acc') =? b).
      - injection Hrest as <-. exists [], []. rewrite app_nil_r.
        split; [done|]. split; [apply sublist_nil_l | constructor].
      - by apply IH. }
    destruct Hsel as (selected & added & -> & Hsub & Hall).
    apply visit_row_cases in Hv as [->|(loc & -> & Hp)].
    + exists selected, added. split; [done|]. split; [by apply sublist_cons | done].
    + exists (row :: selected), (loc :: added). rewrite <- app_assoc. simpl.
      split; [done|]. split; [by apply sublist_skip | by constructor].
Qed.

(** With a batch size of at least one, the scan never grows past it. *)
Lemma scan_rows_bound fs cs b ef rows acc out :
  Z.of_nat (length acc) < b ->
  scan_rows fs cs b ef rows acc = Ok out ->
  Z.of_nat (length out) <= b.
Proof.
  revert acc. induction rows as [|row rest IH]; intros acc Hlt; simpl.
  - intros [= <-]. lia.
  - intros Hb. apply bind_ok in Hb as (acc' & Hv & Hrest).
    pose proof (visit_row_length _ _ _ _ _ _ Hv) as Hlen.
    destruct (Z.eqb_spec (Z.of_nat (length acc')) b) as [Heq|Hne].
    + injection Hrest as <-. lia.
    + apply (IH acc'); [lia | done].
Qed.

(** Once a prefix of the manifest fills the batch, the rows after it
    are never looked at. *)
Lemma scan_rows_stops fs cs b ef rows1 rows2 acc out :
  Z.of_nat (length acc) < b ->
  scan_rows fs cs b ef rows1 acc = Ok out ->
  Z.of_nat (length out) = b ->
  scan_rows fs cs b ef (rows1 ++ rows2) acc = Ok out.
Proof.
  revert acc. induction rows1 as [|row rest IH]; intros acc Hlt; simpl.
  - intros [= <-]. lia.
  - intros Hb Hfull. apply bind_ok in Hb as (acc' & Hv & Hrest).
    rewrite Hv. simpl.
    pose proof (visit_row_length _ _ _ _ _ _ Hv) as Hlen.
    destruct (Z.eqb_spec (Z.of_nat (length acc')) b) as [Heq|Hne]; [done|].
    apply IH; [lia | done | done].
Qed.

(** What [resolve_inputs] returns, in terms of the scan. *)
Lemma resolve_inputs_inv s3 fs rows b bucket c ae ef locs names :
  resolve_inputs extract_subjects s3 fs rows b bucket c ae ef = Ok (locs, names) ->
  exists scanned,
    select_locations extract_subjects s3 fs rows b bucket ae ef = Ok scanned /\
    c <> 0 /\
    locs = Py.slice_to scanned
             (Z.of_nat (length scanned) - Z.of_nat (length scanned) mod c) /\
    names = map Py.last_segment locs.
Proof.
  unfold resolve_inputs. intros Hr.
  apply bind_ok in Hr as (scanned & Hscan & Hr).
  apply bind_ok in Hr as (r & Hmod & Hr).
  unfold Py.mod_ in Hmod. destruct (Z.eqb_spec c 0) as [|Hc]; [discriminate|].
  injection Hmod as <-. injection Hr as <- <-. eauto.
Qed.

Lemma slice_to_is_take {A} (l : list A) (hi : Z) :
  0 <= hi <= Z.of_nat (length l) -> Py.slice_to l hi = take (Z.to_nat hi) l.
Proof. intros Hhi. unfold Py.slice_to. by rewrite clip_inside. Qed.

Lemma slice_to_prefix {A} (l : list A) (hi : Z) :
  Py.slice_to l hi = take (length (Py.slice_to l hi)) l.
Proof.
  unfold Py.slice_to. rewrite length_take.
  destruct (Nat.le_gt_cases (Py.clip (length l) hi) (length l)).
  - by rewrite Nat.min_l.
  - rewrite Nat.min_r by lia. rewrite !take_ge; [done | lia | lia].
Qed.

(** C1: for a positive [cores_per_inst], whenever the scan of the
    manifest succeeds the call returns the scanned list cut on the right
    to the largest multiple of [cores_per_inst] that fits; so any list
    of locations it returns has a length that is an exact multiple of
    [cores_per_inst]. *)
Theorem resolve_inputs_multiple_of_cores s3 fs rows b bucket c ae ef :
  0 < c ->
  (forall scanned,
     select_locations extract_subjects s3 fs rows b bucket ae ef = Ok scanned ->
     let kept := take (Z.to_nat (c * (Z.of_nat (length scanned) / c))) scanned in
     resolve_inputs extract_subjects s3 fs rows b bucket c ae ef
     = Ok (kept, map Py.last_segment kept)) /\
  (forall locs names,
     resolve_inputs extract_subjects s3 fs rows b bucket c ae ef = Ok (locs, names) ->
     Z.of_nat (length locs) mod c = 0 /\
     exists scanned,
       select_locations extract_subjects s3 fs rows b bucket ae ef = Ok scanned /\
       locs = take (length locs) scanned /\
       Z.of_nat (length locs) = c * (Z.of_nat (length scanned) / c) /\
       (forall m, m mod c = 0 -> m <= Z.of_nat (length scanned) ->
                  m <= Z.of_nat (length locs))).
Proof.
  intros Hc.
  assert (Hcut : forall n : nat,
             0 <= c * (Z.of_nat n / c) <= Z.of_nat n /\
             Z.of_nat n - Z.of_nat n mod c = c * (Z.of_nat n / c)).
  { intros n. pose proof (Z.div_mod (Z.of_nat n) c ltac:(lia)) as Hdm.
    pose proof (Z.mod_pos_bound (Z.of_nat n) c Hc).
    pose proof (Z.div_pos (Z.of_nat n) c ltac:(lia) Hc). nia. }
  split.
  - intros scanned Hscan kept. unfold resolve_inputs, Py.mod_. rewrite Hscan. simpl.
    destruct (Z.eqb_spec c 0) as [|_]; [lia|]. simpl.
    destruct (Hcut (length scanned)) as [Hrange Heq].
    rewrite Heq, slice_to_is_take by done. reflexivity.
  - intros locs names Hr.
    apply resolve_inputs_inv in Hr as (scanned & Hscan & _ & Hlocs & _).
    destruct (Hcut (length scanned)) as [Hrange Heq].
    rewrite Heq, slice_to_is_take in Hlocs by done.
    assert (Hlen : Z.of_nat (length locs) = c * (Z.of_nat (length scanned) / c)).
    { subst locs. rewrite length_take. lia. }
    split.
    { rewrite Hlen, Z.mul_comm. apply Z.mod_mul. lia. }
    exists scanned. split; [done|]. split.
    { subst locs. rewrite length_take. f_equal. lia. }
    split; [done|].
    intros m Hm Hle. rewrite Hlen.
    pose proof (Z.div_mod m c ltac:(lia)) as Hdm. rewrite Hm in Hdm.
    pose proof (Z.div_le_mono m (Z.of_nat (length scanned)) c Hc Hle). nia.
Qed.

(** C2, as the code has it: with a batch size of at least one, the call
    returns at most [batch_size] locations, and once the rows read so
    far fill the batch the rows after them change nothing. *)
Theorem resolve_inputs_at_most_batch_size s3 fs rows b bucket c ae ef :
  1 <= b ->
  (forall locs names,
     resolve_inputs extract_subjects s3 fs rows b bucket c ae ef = Ok (locs, names) ->
     Z.of_nat (length locs) <= b) /\
  (forall more scanned,
     select_locations extract_subjects s3 fs rows b bucket ae ef = Ok scanned ->
     Z.of_nat (length scanned) = b ->
     select_locations extract_subjects s3 fs (rows ++ more) b bucket ae ef = Ok scanned).
Proof.
  intros Hb. split.
  - intros locs names Hr.
    apply resolve_inputs_inv in Hr as (scanned & Hscan & _ & Hlocs & _).
    apply scan_rows_bound in Hscan; [|simpl; lia].
    rewrite slice_to_prefix in Hlocs.
    assert (length locs <= length scanned)%nat; [|lia].
    rewrite Hlocs, length_take. lia.
  - intros more scanned Hscan Hfull. unfold select_locations in *.
    apply scan_rows_stops; [simpl; lia | done | done].
Qed.

(** C7, as the code has it: nothing checks [cores_per_inst]. An error of
    the scan comes first; after a scan that succeeded, zero fails with
    the division error of the truncation step, and a negative value is
    accepted: every scanned location is returned, none is cut. *)
Theorem resolve_inputs_nonpositive_cores s3 fs rows b bucket c ae ef :
  c <= 0 ->
  (forall e,
     select_locations extract_subjects s3 fs rows b bucket ae ef = Raise e ->
     resolve_inputs extract_subjects s3 fs rows b bucket c ae ef = Raise e) /\
  (forall scanned,
     select_locations extract_subjects s3 fs rows b bucket ae ef = Ok scanned ->
     resolve_inputs extract_subjects s3 fs rows b bucket c ae ef
     = if c =? 0 then Raise ZeroDivisionError
       else Ok (scanned, map Py.last_segment scanned)).
Proof.
  intros Hc. split.
  - intros e Hscan. unfold resolve_inputs. by rewrite Hscan.
  - intros scanned Hscan. unfold resolve_inputs, Py.mod_. rewrite Hscan. simpl.
    destruct (Z.eqb_spec c 0) as [|Hne]; [done|]. simpl.
    pose proof (Z.mod_neg_bound (Z.of_nat (length scanned)) c ltac:(lia)).
    unfold Py.slice_to. rewrite clip_above by lia.
    by rewrite take_ge.
Qed.

(** C5, as the code has it: when failures are excluded, every returned
    location comes from a manifest row, in manifest order, whose subject
    the failure check does not find in the ledger (no ledger line equals
    it once stripped), so a subject without white space around it that
    is a full line of the ledger is never among them; when failures are
    not excluded, the ledger has no say at all: the call gives the same
    outcome under any two directories. *)
Theorem resolve_inputs_failure_ledger s3 fs rows b bucket c ae :
  (forall locs names,
     resolve_inputs extract_subjects s3 fs rows b bucket c ae true = Ok (locs, names) ->
     exists selected,
       sublist selected rows /\
       Forall2 (fun loc row =>
                  row !! "location" = Some loc /\
                  exists subject,
                    row !! "Subject" = Some subject /\
                    ~ recorded fs subject /\
                    (Py.strip subject = subject ->
                     forall content, fs !! FAILED_TXT = Some content ->
                                     subject ∉ ledger_lines content))
               locs selected) /\
  (forall fs',
     resolve_inputs extract_subjects s3 fs' rows b bucket c ae false
     = resolve_inputs extract_subjects s3 fs rows b bucket c ae false).
Proof.
  split.
  - intros locs names Hr.
    apply resolve_inputs_inv in Hr as (scanned & Hscan & _ & Hlocs & _).
    unfold select_locations in Hscan.
    apply scan_rows_selected in Hscan as (selected & added & -> & Hsub & Hall).
    simpl in Hlocs. subst locs. rewrite slice_to_prefix.
    set (k := length (Py.slice_to _ _)).
    exists (take k selected). split.
    { etrans; [apply sublist_take | done]. }
    apply Forall2_take.
    eapply Forall2_impl; [exact Hall|].
    intros loc row (Hloc & subject & Hsubj & _ & Hfail).
    split; [done|]. exists subject. split; [done|].
    assert (Hnot : ~ recorded fs subject).
    { intros Hrec. apply file_in_failed_recorded in Hrec.
      rewrite Hfail in Hrec; [discriminate | done]. }
    split; [done|]. intros Hclean content Hfs Hin.
    apply Hnot. by eapply recorded_full_line.
  - intros fs'. unfold resolve_inputs, select_locations. f_equal.
    generalize (@nil string) as acc.
    induction rows as [|row rest IH]; intros acc; [done|].
    simpl. unfold visit_row.
    destruct (getitem row "Subject"); simpl; [|done].
    case_bool_decide; simpl.
    + destruct (getitem row "location"); simpl; [|done].
      destruct (_ =? _); [done | apply IH].
    + destruct (_ =? _); [done | apply IH].
Qed.

End BatchSelector.

(** ** The batch selector on the sample manifest *)

(** The specification's example: three rows, a batch of three, two cores
    per instance; the third location is dropped. *)
Example resolve_inputs_sample :
  resolve_inputs Sample.no_subjects Sample.empty_store ∅ Sample.rows 3 "out" 2 false false
  = Ok (["s3://b/crams/ABC-RS1.cram"; "s3://b/crams/DEF-RS2.cram"],
        ["ABC-RS1.cram"; "DEF-RS2.cram"]).
Proof. vm_compute. reflexivity. Qed.

(** The theorem on the sample manifest, with two cores per instance. *)
Lemma resolve_inputs_multiple_of_cores_witness :
  0 < 2 /\
  resolve_inputs Sample.no_subjects Sample.empty_store ∅ Sample.rows 3 "out" 2 false false
  = Ok (["s3://b/crams/ABC-RS1.cram"; "s3://b/crams/DEF-RS2.cram"],
        ["ABC-RS1.cram"; "DEF-RS2.cram"]) /\
  Z.of_nat (length ["s3://b/crams/ABC-RS1.cram"; "s3://b/crams/DEF-RS2.cram"]) mod 2 = 0.
Proof.
  split; [lia|]. split; [vm_compute; reflexivity|].
  refine (proj1 (proj2 (resolve_inputs_multiple_of_cores
                          Sample.no_subjects Sample.empty_store ∅ Sample.rows
                          3 "out" 2 false false _) _ _ _)).
  - lia.
  - vm_compute. reflexivity.
Defined.

(** C2, as the specification words it, fails: a batch size of zero is
    never met after the first location is appended, so the scan runs to
    the end of the manifest and three locations come back. *)
Lemma resolve_inputs_exceeds_zero_batch :
  exists locs names,
    resolve_inputs Sample.no_subjects Sample.empty_store ∅ Sample.rows 0 "out" 1 false false
    = Ok (locs, names) /\
    ~ Z.of_nat (length locs) <= 0.
Proof.
  eexists _, _. split; [vm_compute; reflexivity|]. simpl. lia.
Qed.

(** The theorem on the sample manifest, with a batch of two. *)
Lemma resolve_inputs_at_most_batch_size_witness :
  1 <= 2 /\
  resolve_inputs Sample.no_subjects Sample.empty_store ∅ Sample.rows 2 "out" 1 false false
  = Ok (["s3://b/crams/ABC-RS1.cram"; "s3://b/crams/DEF-RS2.cram"],
        ["ABC-RS1.cram"; "DEF-RS2.cram"]) /\
  Z.of_nat (length ["s3://b/crams/ABC-RS1.cram"; "s3://b/crams/DEF-RS2.cram"]) <= 2.
Proof.
  split; [lia|]. split; [vm_compute; reflexivity|].
  refine (proj1 (resolve_inputs_at_most_batch_size
                   Sample.no_subjects Sample.empty_store ∅ Sample.rows
                   2 "out" 1 false false _) _ _ _).
  - lia.
  - vm_compute. reflexivity.
Defined.

(** C7, as the specification words it, fails: with minus two cores per
    instance the call raises nothing and returns the three locations. *)
Lemma resolve_inputs_accepts_negative_cores :
  -2 <= 0 /\
  ~ raises (resolve_inputs Sample.no_subjects Sample.empty_store ∅ Sample.rows
              3 "out" (-2) false false).
Proof.
  split; [lia|]. intros [e He]. vm_compute in He. discriminate.
Qed.

(** The theorem on the sample manifest, with minus two cores. *)
Lemma resolve_inputs_nonpositive_cores_witness :
  -2 <= 0 /\
  select_locations Sample.no_subjects Sample.empty_store ∅ Sample.rows 3 "out" false false
  = Ok ["s3://b/crams/ABC-RS1.cram"; "s3://b/crams/DEF-RS2.cram";
        "s3://b/crams/GHI-RS3.cram"] /\
  resolve_inputs Sample.no_subjects Sample.empty_store ∅ Sample.rows 3 "out" (-2) false false
  = Ok (["s3://b/crams/ABC-RS1.cram"; "s3://b/crams/DEF-RS2.cram";
         "s3://b/crams/GHI-RS3.cram"],
        map Py.last_segment
          ["s3://b/crams/ABC-RS1.cram"; "s3://b/crams/DEF-RS2.cram";
           "s3://b/crams/GHI-RS3.cram"]).
Proof.
  split; [lia|]. split; [vm_compute; reflexivity|].
  refine (proj2 (resolve_inputs_nonpositive_cores
                   Sample.no_subjects Sample.empty_store ∅ Sample.rows
                   3 "out" (-2) false false _) _ _).
  - lia.
  - vm_compute. reflexivity.
Defined.

(** With zero cores per instance the sample call ends in the division
    error. *)
Example resolve_inputs_zero_cores :
  resolve_inputs Sample.no_subjects Sample.empty_store ∅ Sample.rows 3 "out" 0 false false
  = Raise ZeroDivisionError.
Proof. vm_compute. reflexivity. Qed.

(** C5, as the specification words it, fails: the only row has the
    subject " x", that very text is a full line of the ledger, failures
    are excluded, and the row's location is returned all the same. *)
Lemma resolve_inputs_keeps_blank_led_subject :
  Sample.blank_rows = [mkrow "s3://b/crams/x.cram" " x"] /\
  Sample.blank_ledger !! FAILED_TXT = Some (" x" +:+ Py.nl) /\
  " x" ∈ ledger_lines (" x" +:+ Py.nl) /\
  resolve_inputs Sample.no_subjects Sample.empty_store Sample.blank_ledger
    Sample.blank_rows 1 "out" 1 true true
  = Ok (["s3://b/crams/x.cram"], ["x.cram"]).
Proof.
  split; [reflexivity|]. split; [vm_compute; reflexivity|].
  split; [vm_compute; left|]. vm_compute. reflexivity.
Qed.

(** The theorem on the sample manifest and the ledger that lists its
    second subject. *)
Lemma resolve_inputs_failure_ledger_witness :
  resolve_inputs Sample.no_subjects Sample.empty_store Sample.ledger Sample.rows
    3 "out" 1 false true
  = Ok (["s3://b/crams/ABC-RS1.cram"; "s3://b/crams/GHI-RS3.cram"],
        ["ABC-RS1.cram"; "GHI-RS3.cram"]) /\
  exists selected,
    sublist selected Sample.rows /\
    Forall2 (fun loc row =>
               row !! "location" = Some loc /\
               exists subject,
                 row !! "Subject" = Some subject /\
                 ~ recorded Sample.ledger subject /\
                 (Py.strip subject = subject ->
                  forall content, Sample.ledger !! FAILED_TXT = Some content ->
                                  subject ∉ ledger_lines content))
            ["s3://b/crams/ABC-RS1.cram"; "s3://b/crams/GHI-RS3.cram"] selected.
Proof.
  split; [vm_compute; reflexivity|].
  refine (proj1 (resolve_inputs_failure_ledger
                   Sample.no_subjects Sample.empty_store Sample.ledger Sample.rows
                   3 "out" 1 false) _ _ _).
  vm_compute. reflexivity.
Defined.

(** A subject of the ledger is returned when failures are not excluded. *)
Example resolve_inputs_keeps_failed_when_not_excluded :
  recorded Sample.ledger "DEF-RS2" /\
  resolve_inputs Sample.no_subjects Sample.empty_store Sample.ledger Sample.rows
    3 "out" 1 false false
  = Ok (["s3://b/crams/ABC-RS1.cram"; "s3://b/crams/DEF-RS2.cram";
         "s3://b/crams/GHI-RS3.cram"],
        ["ABC-RS1.cram"; "DEF-RS2.cram"; "GHI-RS3.cram"]).
Proof.
  split; [|vm_compute; reflexivity].
  apply file_in_failed_recorded. vm_compute. reflexivity.
Qed.

(** ** The grouping engine *)

Section Grouping.

Variable get_filetype : list string -> string * option string.

Lemma length_concat_sum {A} (groups : list (list A)) :
  length (concat groups) = sum_list (length <$> groups).
Proof.
  induction groups as [|g groups IH]; simpl; [done|].
  by rewrite length_app, IH.
Qed.

(** A slice that starts at a multiple of a positive step and is one
    step long. *)
Lemma slice_step {A} (l : list A) (j : nat) (k : Z) :
  0 < k ->
  Py.slice l (0 + Z.of_nat j * k) (0 + Z.of_nat j * k + k)
  = take (Z.to_nat k) (drop (j * Z.to_nat k) l).
Proof.
  intros Hk. unfold Py.slice.
  set (n := length l). set (i := 0 + Z.of_nat j * k).
  assert (Hi : Z.to_nat i = (j * Z.to_nat k)%nat) by (unfold i; nia).
  assert (0 <= i) by (unfold i; nia).
  destruct (Z.le_gt_cases i (Z.of_nat n)) as [Hin|Hout].
  - rewrite (clip_inside n i) by lia. rewrite Hi.
    destruct (Z.le_gt_cases (i + k) (Z.of_nat n)) as [Hfit|Hlast].
    + rewrite (clip_inside n (i + k)) by lia. f_equal. lia.
    + rewrite (clip_above n (i + k)) by lia.
      rewrite !take_ge; [done | |]; rewrite length_drop; unfold n in *; lia.
  - rewrite !clip_above by lia. rewrite Nat.sub_diag. simpl.
    rewrite !drop_ge by (unfold n in *; lia). by rewrite !take_nil.
Qed.

Lemma concat_steps {A} (l : list A) (K m : nat) :
  concat (map (fun j => take K (drop (j * K) l)) (seq 0 m)) = take (m * K) l.
Proof.
  induction m as [|m IH]; [done|].
  rewrite seq_S, map_app, concat_app, IH. simpl. rewrite app_nil_r.
  rewrite take_take_drop. f_equal. lia.
Qed.

(** For a positive group size the chunks are consecutive pieces of the
    list, of that size, and together they are the list. *)
Lemma chunk_positive (filenames : list string) (k : Z) :
  0 < k ->
  exists chunks, chunk filenames k = Ok chunks /\ concat chunks = filenames.
Proof.
  intros Hk. unfold chunk, Py.range.
  destruct (Z.eqb_spec k 0) as [|_]; [lia|]. simpl.
  eexists. split; [reflexivity|].
  rewrite map_map.
  rewrite (map_ext _ (fun j => take (Z.to_nat k) (drop (j * Z.to_nat k) filenames)))
    by (intros j; by apply slice_step).
  rewrite concat_steps. apply take_ge.
  unfold Py.range_len. destruct (Z.ltb_spec 0 k) as [_|]; [|lia].
  destruct (Z.ltb_spec 0 (Z.of_nat (length filenames))) as [Hn|Hn]; [|simpl; lia].
  pose proof (Z.div_mod (Z.of_nat (length filenames) - 0 - 1) k ltac:(lia)) as Hdm.
  pose proof (Z.mod_pos_bound (Z.of_nat (length filenames) - 0 - 1) k Hk).
  pose proof (Z.div_pos (Z.of_nat (length filenames) - 0 - 1) k ltac:(lia) Hk).
  nia.
Qed.

(** The index names are chunked exactly as the names are. *)
Lemma chunk_map (f : string -> string) (filenames : list string) (starts : list Z) (k : Z) :
  map (fun i => Py.slice (map f filenames) i (i + k)) starts
  = map (map f) (map (fun i => Py.slice filenames i (i + k)) starts).
Proof.
  rewrite map_map. apply map_ext. intros i.
  unfold Py.slice. rewrite length_map.
  by rewrite <- fmap_drop, <- fmap_take.
Qed.

Lemma prepend_path_groups (groups : list (list string)) (path : string) :
  prepend_path (of_groups groups) path
  = of_groups (map (map (fun s => path +:+ s)) groups).
Proof.
  unfold of_groups. simpl. f_equal. rewrite !map_map.
  apply map_ext. intros g. simpl. by rewrite !map_map.
Qed.

Lemma basename_groups (groups : list (list string)) :
  basename (of_groups groups)
  = of_groups (map (map (fun s => Py.splitext_root (Py.last_segment s))) groups).
Proof.
  unfold of_groups. simpl. f_equal. rewrite !map_map.
  apply map_ext. intros g. simpl. by rewrite !map_map.
Qed.

Lemma flatten_groups (groups : list (list string)) :
  flatten (of_groups groups) = concat groups.
Proof.
  unfold of_groups. simpl. rewrite map_map. f_equal.
  rewrite <- (map_id groups) at 2.
  apply map_ext. intros g. simpl. rewrite map_map. simpl.
  induction g as [|s g IH]; simpl; [done | by rewrite IH].
Qed.

Lemma removeprefix_app (p s : string) : removeprefix (p +:+ s) p = s.
Proof.
  unfold removeprefix.
  assert (Hsw : Py.startswith (p +:+ s) p = true).
  { induction p as [|a p IH]; simpl; [done|].
    rewrite IH. by rewrite (proj2 (ascii_eqb_true a a)). }
  rewrite Hsw. induction p as [|a p IH]; simpl; [done|].
  apply IH. simpl in Hsw. by apply andb_true_iff in Hsw as [_ ?].
Qed.

Lemma lengths_map_map {A B} (f : A -> B) (groups : list (list A)) :
  length <$> map (map f) groups = length <$> groups.
Proof.
  induction groups as [|g groups IH]; simpl; [done|].
  rewrite length_map. f_equal. apply IH.
Qed.

Lemma concat_map_map {A B} (f : A -> B) (groups : list (list A)) :
  concat (map (map f) groups) = map f (concat groups).
Proof.
  induction groups as [|g groups IH]; simpl; [done|].
  by rewrite map_app, IH.
Qed.

(** What [group_inputs] returns for a positive group size, in terms of
    the chunks of the file names. *)
Lemma group_inputs_positive (filenames : list string) (k : Z) :
  0 < k ->
  exists chunks,
    chunk filenames k = Ok chunks /\ concat chunks = filenames /\
    group_inputs get_filetype filenames k
    = Ok (of_groups (map (map (fun s => Py.splitext_root (Py.last_segment s))) chunks),
          of_groups (map (map (fun s => ((get_filetype filenames).1 +:+ "s/") +:+ s)) chunks),
          match (get_filetype filenames).2 with
          | Some ext =>
              if Py.str_eqb ext EmptyString then None
              else Some (of_groups
                           (map (map (fun s => ((get_filetype filenames).1 +:+ "sidx/")
                                                +:+ (s +:+ "." +:+ ext))) chunks))
          | None => None
          end).
Proof.
  intros Hk. destruct (chunk_positive filenames k Hk) as (chunks & Hch & Hcat).
  exists chunks. split; [done|]. split; [done|].
  unfold group_inputs. destruct (get_filetype filenames) as [ftype idx_ext].
  cbn beta iota delta [fst snd]. rewrite Hch.
  cbn beta iota delta [bind]. rewrite prepend_path_groups, basename_groups.
  destruct idx_ext as [ext|]; [|done].
  destruct (Py.str_eqb ext EmptyString); [done|].
  unfold chunk in Hch. destruct (Py.range _ _ _) as [starts|]; [|discriminate].
  cbn beta iota delta [bind] in *. injection Hch as <-.
  rewrite chunk_map, prepend_path_groups. do 4 f_equal.
  rewrite !map_map. apply map_ext. intros g. by rewrite map_map.
Qed.

(** C3: for a positive group size the call returns; the groups of
    [grouped_input_paths] are the consecutive chunks of the file names,
    so their sizes add up to the number of file names; [subjects] has
    as many groups, of the same sizes; and when an index extension is
    resolved so has the index output, whose entries are built from the
    same file names at the same positions. *)
Theorem group_inputs_shape (filenames : list string) (k : Z) :
  0 < k ->
  exists chunks ss gs idx,
    concat chunks = filenames /\
    group_inputs get_filetype filenames k = Ok (of_groups ss, of_groups gs, idx) /\
    gs = map (map (fun s => ((get_filetype filenames).1 +:+ "s/") +:+ s)) chunks /\
    ss = map (map (fun s => Py.splitext_root (Py.last_segment s))) chunks /\
    sum_list (length <$> gs) = length filenames /\
    length ss = length gs /\
    length <$> ss = length <$> gs /\
    match (get_filetype filenames).2 with
    | Some ext =>
        if Py.str_eqb ext EmptyString then idx = None
        else exists xs,
            idx = Some (of_groups xs) /\
            xs = map (map (fun s => ((get_filetype filenames).1 +:+ "sidx/")
                                     +:+ (s +:+ "." +:+ ext))) chunks /\
            length xs = length gs /\
            length <$> xs = length <$> gs
    | None => idx = None
    end.
Proof.
  intros Hk.
  destruct (group_inputs_positive filenames k Hk) as (chunks & _ & Hcat & Hg).
  eexists chunks, _, _, _. split; [done|]. split; [exact Hg|].
  split; [done|]. split; [done|].
  split. { rewrite lengths_map_map, <- length_concat_sum. by rewrite Hcat. }
  split. { by rewrite !length_map. }
  split. { by rewrite !lengths_map_map. }
  destruct (get_filetype filenames).2 as [ext|]; [|done].
  destruct (Py.str_eqb ext EmptyString); [done|].
  eexists. split; [done|]. split; [done|].
  split; [by rewrite !length_map | by rewrite !lengths_map_map].
Qed.

(** C4: for a positive group size, removing the prefix [<filetype>s/]
    from every entry of [grouped_input_paths] and reading the groups in
    order gives back the file names. *)
Theorem group_inputs_round_trip (filenames : list string) (k : Z) :
  0 < k ->
  exists subjects grouped_input_paths grouped_idx_paths,
    group_inputs get_filetype filenames k
    = Ok (subjects, grouped_input_paths, grouped_idx_paths) /\
    map (fun p => removeprefix p ((get_filetype filenames).1 +:+ "s/"))
        (flatten grouped_input_paths)
    = filenames.
Proof.
  intros Hk.
  destruct (group_inputs_positive filenames k Hk) as (chunks & _ & Hcat & Hg).
  eexists _, _, _. split; [exact Hg|].
  rewrite flatten_groups, concat_map_map, map_map.
  rewrite (map_ext _ id); [by rewrite map_id|].
  intros s. apply removeprefix_app.
Qed.

(** C10: for a negative group size the range of chunk starts is empty,
    so the call returns, raising nothing, with no group at all in
    [subjects] and in [grouped_input_paths], whatever the file names
    (a non-empty list included); the index output is absent or as
    empty. *)
Theorem group_inputs_negative_size (filenames : list string) (k : Z) :
  k < 0 ->
  exists grouped_idx_paths,
    group_inputs get_filetype filenames k = Ok (Lst [], Lst [], grouped_idx_paths) /\
    (grouped_idx_paths = None \/ grouped_idx_paths = Some (Lst [])).
Proof.
  intros Hk.
  assert (Hr : Py.range 0 (Z.of_nat (length filenames)) k = Ok []).
  { unfold Py.range, Py.range_len.
    destruct (Z.eqb_spec k 0) as [|_]; [lia|].
    destruct (Z.ltb_spec 0 k) as [|_]; [lia|].
    by destruct (Z.ltb_spec (Z.of_nat (length filenames)) 0) as [|_]; [lia|]. }
  unfold group_inputs, chunk. rewrite Hr.
  destruct (get_filetype filenames) as [ftype [ext|]]; simpl; [|eauto].
  destruct (Py.str_eqb ext EmptyString); eauto.
Qed.

End Grouping.

(** ** The grouping engine on the sample file names *)

(** The specification's example: three names in groups of two. *)
Example group_inputs_sample :
  group_inputs Sample.cram_type Sample.names 2
  = Ok (of_groups [["a"; "b"]; ["c"]],
        of_groups [["crams/a.cram"; "crams/b.cram"]; ["crams/c.cram"]],
        Some (of_groups [["cramsidx/a.cram.crai"; "cramsidx/b.cram.crai"];
                         ["cramsidx/c.cram.crai"]])).
Proof. vm_compute. reflexivity. Qed.

(** A group size of zero is refused by [range]. *)
Example group_inputs_zero_size :
  group_inputs Sample.cram_type Sample.names 0 = Raise ValueError.
Proof. vm_compute. reflexivity. Qed.

(** The theorem on the three sample names, in groups of two. *)
Lemma group_inputs_shape_witness :
  0 < 2 /\
  exists chunks ss gs idx,
    concat chunks = Sample.names /\
    group_inputs Sample.cram_type Sample.names 2 = Ok (of_groups ss, of_groups gs, idx) /\
    gs = map (map (fun s => ((Sample.cram_type Sample.names).1 +:+ "s/") +:+ s)) chunks /\
    ss = map (map (fun s => Py.splitext_root (Py.last_segment s))) chunks /\
    sum_list (length <$> gs) = length Sample.names /\
    length ss = length gs /\
    length <$> ss = length <$> gs /\
    match (Sample.cram_type Sample.names).2 with
    | Some ext =>
        if Py.str_eqb ext EmptyString then idx = None
        else exists xs,
            idx = Some (of_groups xs) /\
            xs = map (map (fun s => ((Sample.cram_type Sample.names).1 +:+ "sidx/")
                                     +:+ (s +:+ "." +:+ ext))) chunks /\
            length xs = length gs /\
            length <$> xs = length <$> gs
    | None => idx = None
    end.
Proof.
  split; [lia|]. apply (group_inputs_shape Sample.cram_type Sample.names 2). lia.
Defined.

(** The round trip on the three sample names, in groups of two. *)
Lemma group_inputs_round_trip_witness :
  0 < 2 /\
  exists subjects grouped_input_paths grouped_idx_paths,
    group_inputs Sample.cram_type Sample.names 2
    = Ok (subjects, grouped_input_paths, grouped_idx_paths) /\
    map (fun p => removeprefix p ((Sample.cram_type Sample.names).1 +:+ "s/"))
        (flatten grouped_input_paths)
    = Sample.names.
Proof.
  split; [lia|]. apply (group_inputs_round_trip Sample.cram_type Sample.names 2). lia.
Defined.

(** The three sample names with a group size of minus two. *)
Lemma group_inputs_negative_size_witness :
  -2 < 0 /\
  exists grouped_idx_paths,
    group_inputs Sample.cram_type Sample.names (-2)
    = Ok (Lst [], Lst [], grouped_idx_paths) /\
    (grouped_idx_paths = None \/ grouped_idx_paths = Some (Lst [])).
Proof.
  split; [lia|]. apply (group_inputs_negative_size Sample.cram_type Sample.names (-2)). lia.
Defined.

(** ** Facts about strings *)

Lemma str_eqb_refl (s : string) : Py.str_eqb s s = true.
Proof. by apply str_eqb_true. Qed.

Lemma ascii_eqb_refl (a : ascii) : Py.ascii_eqb a a = true.
Proof. by apply ascii_eqb_true. Qed.

Lemma startswith_app (p t : string) : Py.startswith (p +:+ t) p = true.
Proof.
  induction p as [|a p IH]; [done|]. rewrite str_app_cons. simpl.
  rewrite IH. by rewrite (proj2 (ascii_eqb_true a a)).
Qed.

Lemma startswith_inv (s p : string) :
  Py.startswith s p = true -> exists t, s = p +:+ t.
Proof.
  revert s. induction p as [|a p IH]; intros s; simpl.
  - intros _. by exists s.
  - destruct s as [|b s]; [discriminate|].
    intros [Hab Hrest]%andb_true_iff. apply ascii_eqb_true in Hab as ->.
    apply IH in Hrest as [t ->]. by exists t.
Qed.

Lemma endswith_app (s p : string) : Py.endswith (s +:+ p) p = true.
Proof.
  induction s as [|a s IH].
  - rewrite str_app_nil_l. destruct p; cbn [Py.endswith]; by rewrite str_eqb_refl.
  - rewrite str_app_cons. cbn [Py.endswith]. rewrite IH. apply orb_true_r.
Qed.

Lemma endswith_inv (s p : string) :
  Py.endswith s p = true -> exists stem, s = stem +:+ p.
Proof.
  induction s as [|a s IH]; simpl.
  - rewrite orb_false_r. intros ->%str_eqb_true. by exists EmptyString.
  - intros [->%str_eqb_true|Hrest]%orb_true_iff; [by exists EmptyString|].
    apply IH in Hrest as [stem ->]. by exists (String a stem).
Qed.

Lemma removesuffix_app (stem p : string) : removesuffix (stem +:+ p) p = stem.
Proof.
  induction stem as [|a stem IH].
  - rewrite str_app_nil_l. destruct p; cbn [removesuffix]; by rewrite str_eqb_refl.
  - rewrite str_app_cons. cbn [removesuffix].
    rewrite (proj2 (str_eqb_false _ _)), endswith_app, IH; [done|].
    intros Heq. apply (f_equal String.length) in Heq.
    simpl in Heq. rewrite str_app_length in Heq. lia.
Qed.

Lemma startswith_refl (p : string) : Py.startswith p p = true.
Proof. rewrite <- (str_app_nil_r p) at 1. apply startswith_app. Qed.

Lemma split_head_eq (s sep : string) :
  Py.split_head s sep
  = if Py.startswith s sep then EmptyString
    else match s with
         | EmptyString => EmptyString
         | String c r => String c (Py.split_head r sep)
         end.
Proof. by destruct s. Qed.

Lemma occurrences_eq (s p : string) :
  occurrences s p
  = ((if Py.startswith s p then 1 else 0) +
     match s with
     | EmptyString => 0
     | String _ r => occurrences r p
     end)%nat.
Proof. by destruct s. Qed.

Lemma occurrences_suffix (stem sep : string) : (1 <= occurrences (stem +:+ sep) sep)%nat.
Proof.
  induction stem as [|a stem IH].
  - rewrite str_app_nil_l, occurrences_eq, startswith_refl. lia.
  - rewrite str_app_cons, occurrences_eq. lia.
Qed.

(** When the separator occurs in the key once, as its suffix, the text
    before its first occurrence is the key without the suffix. *)
Lemma split_head_only_suffix (stem sep : string) :
  occurrences (stem +:+ sep) sep = 1%nat ->
  Py.split_head (stem +:+ sep) sep = stem.
Proof.
  induction stem as [|a stem IH]; intros Honce.
  - by rewrite str_app_nil_l, split_head_eq, startswith_refl.
  - rewrite str_app_cons in *. rewrite split_head_eq.
    rewrite occurrences_eq in Honce.
    pose proof (occurrences_suffix stem sep) as Hge.
    destruct (Py.startswith (String a (stem +:+ sep)) sep); [lia|].
    f_equal. apply IH. lia.
Qed.

(** ** The run audit *)

Section RunAudit.

Context {S : Type} `{S3Client S}.

Lemma collect_failed_from (s3 : S) (outbucket : string) (contents : list string)
    (start : gset string) (job_id : string) :
  job_id ∈ foldl (fun failed_job_ids key =>
                    if Py.endswith key POSTRUN_JSON then
                      let content := get_object s3 outbucket key in
                      if negb (Py.contains content MD5SUM_MARKER)
                      then failed_job_ids ∪ {[ Py.split_head key POSTRUN_JSON ]}
                      else failed_job_ids
                    else failed_job_ids)
                 start contents
  <-> job_id ∈ start \/
      exists key, key ∈ contents /\ judged_failed s3 outbucket key /\
                  job_id = Py.split_head key POSTRUN_JSON.
Proof.
  revert start. induction contents as [|k rest IH]; intros start; simpl.
  - split; [by left|]. intros [?|(key & Hin & _)]; [done | inversion Hin].
  - rewrite IH. unfold judged_failed.
    destruct (Py.endswith k POSTRUN_JSON) eqn:He;
      [destruct (Py.contains (get_object s3 outbucket k) MD5SUM_MARKER) eqn:Hc|];
      simpl; split.
    all: try (intros [Hs|(key & Hin & Hj & Heq)];
              [by left | right; exists key; split; [by right | done]]).
    + intros [Hs|(key & Hin & [He' Hc'] & Heq)]; [by left|].
      apply elem_of_cons in Hin as [->|Hin]; [congruence|].
      right. by exists key.
    + intros [Hs|(key & Hin & Hj & Heq)].
      * apply elem_of_union in Hs as [Hs|Hs]; [by left|].
        apply elem_of_singleton in Hs. right. exists k. split; [left | done].
      * right. exists key. split; [by right | done].
    + intros [Hs|(key & Hin & Hj & Heq)].
      * left. apply elem_of_union. by left.
      * apply elem_of_cons in Hin as [->|Hin].
        -- left. apply elem_of_union. right. by apply elem_of_singleton.
        -- right. by exists key.
    + intros [Hs|(key & Hin & [He' Hc'] & Heq)]; [by left|].
      apply elem_of_cons in Hin as [->|Hin]; [congruence|].
      right. by exists key.
Qed.

(** C9, as the code has it: a job identifier is in the failed set exactly
    when it comes from a listed key that ends in [.postrun.json] and
    whose content lacks the marker; the identifier is the text of the key
    before the first [.postrun.json], which is the key without that
    suffix whenever the suffix is its only occurrence in the key. *)
Theorem collect_failed_exactly (s3 : S) (outbucket : string) (contents : list string)
    (job_id : string) :
  (job_id ∈ collect_failed s3 outbucket contents <->
   exists key, key ∈ contents /\
     (Py.endswith key POSTRUN_JSON = true /\
      Py.contains (get_object s3 outbucket key) MD5SUM_MARKER = false) /\
     job_id = Py.split_head key POSTRUN_JSON) /\
  (forall key,
     Py.endswith key POSTRUN_JSON = true ->
     occurrences key POSTRUN_JSON = 1%nat ->
     Py.split_head key POSTRUN_JSON = removesuffix key POSTRUN_JSON).
Proof.
  split.
  - unfold collect_failed. rewrite collect_failed_from. unfold judged_failed.
    split; [|by right]. by intros [?%not_elem_of_empty|?].
  - intros key [stem ->]%endswith_inv Honce.
    by rewrite removesuffix_app, split_head_only_suffix.
Qed.

End RunAudit.

(** ** Lines of a text read back *)

(** Induction over strings that looks two characters ahead, as the
    newline translation does. *)
Lemma string_ind2 (P : string -> Prop) :
  P EmptyString ->
  (forall c, P (String c EmptyString)) ->
  (forall c c' r, P r -> P (String c' r) -> P (String c (String c' r))) ->
  forall s, P s.
Proof.
  intros H0 H1 H2 s.
  assert (Hboth : P s /\ forall c, P (String c s)); [|by destruct Hboth].
  induction s as [|c' r [IHr IHc]]; [by split|].
  split; [apply IHc|]. intros c. by apply H2.
Qed.

Lemma translate_eq (c : ascii) (r : string) :
  Py.translate_newlines (String c r)
  = if Py.ascii_eqb c Py.CR then
      match r with
      | String c' r' =>
          if Py.ascii_eqb c' Py.LF then String Py.LF (Py.translate_newlines r')
          else String Py.LF (Py.translate_newlines r)
      | EmptyString => String Py.LF EmptyString
      end
    else String c (Py.translate_newlines r).
Proof. reflexivity. Qed.

Lemma lines_eq (c : ascii) (r : string) :
  Py.lines (String c r)
  = if Py.ascii_eqb c Py.LF then String c EmptyString :: Py.lines r
    else match Py.lines r with
         | [] => [String c EmptyString]
         | l :: ls => String c l :: ls
         end.
Proof. reflexivity. Qed.

Lemma lines_LF (r : string) : Py.lines (String Py.LF r) = Py.nl :: Py.lines r.
Proof. reflexivity. Qed.

Lemma lines_nonempty (c : ascii) (r : string) : Py.lines (String c r) <> [].
Proof.
  rewrite lines_eq. destruct (Py.ascii_eqb c Py.LF); [done|].
  by destruct (Py.lines r).
Qed.

Lemma translate_nonempty (c : ascii) (r : string) :
  exists c' r', Py.translate_newlines (String c r) = String c' r'.
Proof.
  rewrite translate_eq. destruct (Py.ascii_eqb c Py.CR); [|eauto].
  destruct r as [|c' r']; [eauto|]. destruct (Py.ascii_eqb c' Py.LF); eauto.
Qed.

Lemma ends_lf_cons (c c' : ascii) (r : string) :
  ends_lf (String c (String c' r)) = ends_lf (String c' r).
Proof. reflexivity. Qed.

Lemma ends_lf_after_LF (r : string) : ends_lf (String Py.LF r) = true -> ends_lf r = true.
Proof. by destruct r. Qed.

Lemma ends_lf_app (a b : string) :
  ends_lf a = true -> ends_lf b = true -> ends_lf (a +:+ b) = true.
Proof.
  intros Ha Hb. induction a as [|c|c c' r _ IH] using string_ind2.
  - done.
  - rewrite str_app_cons, str_app_nil_l. destruct b; [done|]. by rewrite ends_lf_cons.
  - rewrite !str_app_cons, ends_lf_cons, <- str_app_cons. apply IH.
    by rewrite ends_lf_cons in Ha.
Qed.

Lemma ends_lf_line (body : string) : ends_lf (body +:+ Py.nl) = true.
Proof.
  induction body as [|c|c c' r _ IH] using string_ind2; [done | done |].
  by rewrite !str_app_cons, ends_lf_cons, <- str_app_cons.
Qed.

Lemma str_concat_cons (x : string) (xs : list string) :
  String.concat EmptyString (x :: xs) = x +:+ String.concat EmptyString xs.
Proof. destruct xs; simpl; [by rewrite str_app_nil_r | done]. Qed.

Lemma str_concat_app (xs ys : list string) :
  String.concat EmptyString (xs ++ ys) = String.concat EmptyString xs +:+ String.concat EmptyString ys.
Proof.
  induction xs as [|x xs IH]; [done|].
  change ((x :: xs) ++ ys) with (x :: (xs ++ ys)).
  by rewrite !str_concat_cons, IH, str_app_assoc.
Qed.

Lemma ends_lf_appended (ids : list string) :
  ends_lf (String.concat EmptyString (map (fun job_id => job_id +:+ Py.nl) ids)) = true.
Proof.
  induction ids as [|x xs IH]; [done|].
  change (map _ (x :: xs)) with ((x +:+ Py.nl) :: map (fun job_id => job_id +:+ Py.nl) xs).
  rewrite str_concat_cons. apply ends_lf_app; [apply ends_lf_line | done].
Qed.

(** A line without newline characters passes the translation unchanged
    and is read back as one line. *)
Lemma translate_line (body rest : string) :
  no_newline body = true ->
  Py.translate_newlines (body +:+ String Py.LF rest)
  = body +:+ String Py.LF (Py.translate_newlines rest).
Proof.
  intros Hb. induction body as [|c r IH]; [done|].
  simpl in Hb. apply andb_true_iff in Hb as [[Hcr _]%andb_true_iff Hr].
  rewrite !str_app_cons, translate_eq.
  apply negb_true_iff in Hcr. rewrite Hcr. by rewrite IH.
Qed.

Lemma lines_line (body rest : string) :
  no_newline body = true ->
  Py.lines (body +:+ String Py.LF rest) = (body +:+ Py.nl) :: Py.lines rest.
Proof.
  intros Hb. induction body as [|c r IH]; [done|].
  simpl in Hb. apply andb_true_iff in Hb as [[_ Hlf]%andb_true_iff Hr].
  rewrite !str_app_cons, lines_eq.
  apply negb_true_iff in Hlf. rewrite Hlf. by rewrite IH.
Qed.

(** After a text that ends its last line, the lines of what follows are
    read as they would be alone. *)
Lemma lines_translate_app (a b : string) :
  ends_lf a = true ->
  Py.lines (Py.translate_newlines (a +:+ b))
  = Py.lines (Py.translate_newlines a) ++ Py.lines (Py.translate_newlines b).
Proof.
  induction a as [|c|c c' r IHr IHc] using string_ind2; intros Ha.
  - done.
  - simpl in Ha. apply ascii_eqb_true in Ha as ->. by destruct b.
  - rewrite ends_lf_cons in Ha.
    rewrite !str_app_cons, !(translate_eq c).
    destruct (Py.ascii_eqb c Py.CR) eqn:Hcr.
    + destruct (Py.ascii_eqb c' Py.LF) eqn:Hlf.
      * apply ascii_eqb_true in Hlf as ->.
        rewrite !lines_LF, IHr; [done | by apply ends_lf_after_LF].
      * rewrite !lines_LF, <- str_app_cons, IHc; done.
    + rewrite <- str_app_cons, !lines_eq, IHc by done.
      destruct (Py.ascii_eqb c Py.LF); [done|].
      destruct (translate_nonempty c' r) as (d & t & ->).
      pose proof (lines_nonempty d t).
      by destruct (Py.lines (String d t)).
Qed.

(** A text that ends its last line is read as terminated lines only. *)
Lemma lines_translate_terminated (s : string) :
  ends_lf s = true -> Forall terminated_line (Py.lines (Py.translate_newlines s)).
Proof.
  assert (Hnl : terminated_line Py.nl) by (by exists EmptyString).
  induction s as [|c|c c' r IHr IHc] using string_ind2; intros Hs.
  - constructor.
  - simpl in Hs. apply ascii_eqb_true in Hs as ->. by constructor.
  - rewrite ends_lf_cons in Hs. rewrite translate_eq.
    destruct (Py.ascii_eqb c Py.CR) eqn:Hcr.
    + destruct (Py.ascii_eqb c' Py.LF) eqn:Hlf.
      * apply ascii_eqb_true in Hlf as ->. rewrite lines_LF.
        constructor; [done | by apply IHr, ends_lf_after_LF].
      * rewrite lines_LF. constructor; [done | by apply IHc].
    + rewrite lines_eq. specialize (IHc Hs).
      destruct (Py.ascii_eqb c Py.LF) eqn:Hlf.
      * apply ascii_eqb_true in Hlf as ->. by constructor.
      * destruct (translate_nonempty c' r) as (d & t & Heq). rewrite Heq in *.
        pose proof (lines_nonempty d t).
        destruct (Py.lines (String d t)) as [|l ls]; [done|].
        inversion IHc as [|? ? (body & -> & Hbody) Hrest]; subst.
        constructor; [|done]. exists (String c body). split; [done|].
        simpl. by rewrite Hcr, Hlf.
Qed.

(** Terminated lines written one after the other are read back as they
    were written. *)
Lemma lines_translate_concat (ls : list string) :
  Forall terminated_line ls ->
  Py.lines (Py.translate_newlines (String.concat EmptyString ls)) = ls.
Proof.
  induction 1 as [|l ls (body & -> & Hbody) _ IH]; [done|].
  rewrite str_concat_cons, str_app_assoc.
  change (Py.nl +:+ String.concat EmptyString ls) with (String Py.LF (String.concat EmptyString ls)).
  by rewrite translate_line, lines_line, IH.
Qed.

(** ** The two ledgers *)

Section Ledgers.

Context {S : Type} `{S3Client S}.
Variable iter_set : gset string -> list string.

(** C8, as the code has it: the audit always completes, and the file it
    appends to and rewrites is [failed_runs.txt]; every other file, the
    [failed.txt] of the failure check included, is left as it was, so
    the failure check answers after the audit what it answered before.
    A failed job identifier ends up as a line of [failed_runs.txt]
    (provided a set is iterated over its elements, the file was empty,
    absent or ended its last line, and the identifier has no newline
    character). *)
Theorem process_postrun_files_ledgers (s3 : S) (fs : gmap string string)
    (jobid_prefix outbucket : string) :
  exists s3' fs' content',
    process_postrun_files iter_set s3 fs jobid_prefix outbucket = Ok (s3', fs') /\
    fs' !! FAILED_RUNS_TXT = Some content' /\
    (forall name, name <> FAILED_RUNS_TXT -> fs' !! name = fs !! name) /\
    (forall subject, file_in_failed fs' subject = file_in_failed fs subject) /\
    ((forall X x, x ∈ iter_set X <-> x ∈ X) ->
     ends_lf (default EmptyString (fs !! FAILED_RUNS_TXT)) = true ->
     forall job_id,
       job_id ∈ failed_job_ids_of s3 jobid_prefix outbucket ->
       no_newline job_id = true ->
       (job_id +:+ Py.nl) ∈ Py.lines (Py.translate_newlines content')).
Proof.
  unfold process_postrun_files, failed_job_ids_of, append_lines, write_lines, read_lines.
  set (s3r := move_logs_to_root s3 jobid_prefix outbucket).
  set (failed := collect_failed s3r outbucket _).
  set (old := default EmptyString (fs !! FAILED_RUNS_TXT)).
  rewrite lookup_insert_eq. cbn beta iota delta [bind].
  set (written := old +:+ _).
  eexists _, _, _. split; [reflexivity|].
  split; [apply lookup_insert_eq|].
  assert (Hother : forall name, name <> FAILED_RUNS_TXT ->
            <[FAILED_RUNS_TXT:=String.concat EmptyString
                (iter_set (list_to_set (Py.lines (Py.translate_newlines written))))]>
              (<[FAILED_RUNS_TXT:=written]> fs) !! name = fs !! name).
  { intros name Hne. by rewrite !lookup_insert_ne. }
  split; [exact Hother|]. split.
  { intros subject. unfold file_in_failed, read_lines. by rewrite Hother. }
  intros Hiter Hold job_id Hin Hclean.
  assert (Hread : (job_id +:+ Py.nl) ∈ Py.lines (Py.translate_newlines written)).
  { apply Hiter, list_elem_of_split in Hin as (ids1 & ids2 & Hids).
    unfold written. rewrite Hids, map_app, str_concat_app.
    change (map _ (job_id :: ids2))
      with ((job_id +:+ Py.nl) :: map (fun j => j +:+ Py.nl) ids2).
    rewrite str_concat_cons, <- str_app_assoc, (str_app_assoc job_id).
    change (Py.nl +:+ ?t) with (String Py.LF t).
    rewrite lines_translate_app
      by (apply ends_lf_app; [done | apply ends_lf_appended]).
    rewrite translate_line, lines_line by done.
    apply elem_of_app. right. left. }
  assert (Hterm : Forall terminated_line
            (iter_set (list_to_set (Py.lines (Py.translate_newlines written))))).
  { apply Forall_forall. intros line Hline.
    apply Hiter, elem_of_list_to_set in Hline.
    assert (Hall : Forall terminated_line (Py.lines (Py.translate_newlines written))).
    { apply lines_translate_terminated. unfold written.
      apply ends_lf_app; [done | apply ends_lf_appended]. }
    by eapply Forall_forall in Hall. }
  rewrite lines_translate_concat by done.
  by apply Hiter, elem_of_list_to_set.
Qed.

End Ledgers.

(** ** The run audit on the sample store *)

(** The specification's example: the descriptor with the marker is a
    success, the one without it a failure. *)
Example failed_job_ids_sample :
  elements (failed_job_ids_of Sample.audit_store "j" "out") = ["j.b"].
Proof. vm_compute. reflexivity. Qed.

(** A key in which the suffix occurs once. *)
Lemma collect_failed_exactly_witness :
  Py.endswith "j.b.postrun.json" POSTRUN_JSON = true /\
  occurrences "j.b.postrun.json" POSTRUN_JSON = 1%nat /\
  Py.split_head "j.b.postrun.json" POSTRUN_JSON
  = removesuffix "j.b.postrun.json" POSTRUN_JSON.
Proof.
  split; [vm_compute; reflexivity|]. split; [vm_compute; reflexivity|].
  apply (proj2 (collect_failed_exactly Sample.audit_store "out" [] EmptyString)).
  - vm_compute. reflexivity.
  - vm_compute. reflexivity.
Defined.

(** C9, as the specification words it, fails: the listed key ends in
    [.postrun.json] twice and its content lacks the marker; the key
    without the suffix is [j.c.postrun.json], and the identifier put in
    the failed set is [j.c]. *)
Lemma collect_failed_not_suffix_stripped :
  list_objects_v2 Sample.twice_store "out" "j." = Some [Sample.twice_key] /\
  judged_failed Sample.twice_store "out" Sample.twice_key /\
  removesuffix Sample.twice_key POSTRUN_JSON = "j.c.postrun.json" /\
  elements (collect_failed Sample.twice_store "out" [Sample.twice_key]) = ["j.c"] /\
  "j.c.postrun.json" ∉ collect_failed Sample.twice_store "out" [Sample.twice_key].
Proof.
  split; [vm_compute; reflexivity|].
  split; [split; vm_compute; reflexivity|].
  split; [vm_compute; reflexivity|].
  assert (Hel : elements (collect_failed Sample.twice_store "out" [Sample.twice_key])
                = ["j.c"]) by (vm_compute; reflexivity).
  split; [done|].
  rewrite <- elem_of_elements, Hel. intros Hin.
  apply list_elem_of_singleton in Hin. discriminate.
Qed.

(** C8, as the specification words it, fails: the audit of the sample
    store records the failed identifier [j.b], and the failure check on
    the directory it leaves still answers no for [j.b]. *)
Lemma audit_does_not_feed_failure_check :
  exists s3' fs',
    process_postrun_files elements Sample.audit_store Sample.empty_ledger "j" "out"
    = Ok (s3', fs') /\
    "j.b" ∈ failed_job_ids_of Sample.audit_store "j" "out" /\
    fs' !! FAILED_RUNS_TXT = Some ("j.b" +:+ Py.nl) /\
    file_in_failed fs' "j.b" = Ok false.
Proof.
  eexists _, _. split; [vm_compute; reflexivity|].
  split; [apply elem_of_elements; vm_compute; left|].
  split; vm_compute; reflexivity.
Qed.

(** The theorem on the sample store and a directory with an empty
    failure ledger, sets being iterated in the order of [elements]. *)
Lemma process_postrun_files_ledgers_witness :
  (forall (X : gset string) x, x ∈ elements X <-> x ∈ X) /\
  ends_lf (default EmptyString (Sample.empty_ledger !! FAILED_RUNS_TXT)) = true /\
  "j.b" ∈ failed_job_ids_of Sample.audit_store "j" "out" /\
  no_newline "j.b" = true /\
  exists s3' fs' content',
    process_postrun_files elements Sample.audit_store Sample.empty_ledger "j" "out"
    = Ok (s3', fs') /\
    fs' !! FAILED_RUNS_TXT = Some content' /\
    (forall subject,
       file_in_failed fs' subject = file_in_failed Sample.empty_ledger subject) /\
    ("j.b" +:+ Py.nl) ∈ Py.lines (Py.translate_newlines content').
Proof.
  assert (Hiter : forall (X : gset string) x, x ∈ elements X <-> x ∈ X)
    by (intros X x; apply elem_of_elements).
  assert (Hold : ends_lf (default EmptyString (Sample.empty_ledger !! FAILED_RUNS_TXT)) = true)
    by (vm_compute; reflexivity).
  assert (Hin : "j.b" ∈ failed_job_ids_of Sample.audit_store "j" "out")
    by (apply elem_of_elements; vm_compute; left).
  assert (Hclean : no_newline "j.b" = true) by (vm_compute; reflexivity).
  do 4 (split; [done|]).
  destruct (process_postrun_files_ledgers elements Sample.audit_store
              Sample.empty_ledger "j" "out")
    as (s3' & fs' & content' & Hrun & Hcontent & _ & Hcheck & Hline).
  exists s3', fs', content'. split; [done|]. split; [done|]. split; [done|].
  by apply Hline.
Defined.

(** ** More on the batch selector *)

Section Selection.

Context {S : Type} `{S3Client S}.
Variable extract_subjects : string -> list string.

Lemma foldl_add_elem (l : list string) (start : gset string) (x : string) :
  x ∈ foldl (fun acc s => acc ∪ {[ s ]}) start l <-> x ∈ start \/ x ∈ l.
Proof.
  revert start. induction l as [|y l IH]; intros start; simpl.
  - split; [by left|]. intros [?|Hin]; [done | inversion Hin].
  - rewrite IH, elem_of_union, elem_of_singleton, elem_of_cons. tauto.
Qed.

Lemma completed_fold_elem (contents : list string) (start : gset string)
    (subject : string) :
  subject ∈ foldl (fun completed_set key =>
                     if Py.endswith key ".tar"
                     then foldl (fun acc s => acc ∪ {[ s ]}) completed_set
                                (extract_subjects key)
                     else completed_set) start contents
  <-> subject ∈ start \/
      exists key, key ∈ contents /\ Py.endswith key ".tar" = true /\
                  subject ∈ extract_subjects key.
Proof.
  revert start. induction contents as [|k rest IH]; intros start; simpl.
  - split; [by left|]. intros [?|(key & Hin & _)]; [done | inversion Hin].
  - rewrite IH. destruct (Py.endswith k ".tar") eqn:He.
    + rewrite foldl_add_elem. split.
      * intros [[?|?]|(key & Hin & ? & ?)]; [by left | |].
        -- right. exists k. split; [left | done].
        -- right. exists key. split; [by right | done].
      * intros [?|(key & Hin & Hk & Hs)]; [by left; left|].
        apply elem_of_cons in Hin as [->|Hin]; [by left; right|].
        right. by exists key.
    + split.
      * intros [?|(key & Hin & ? & ?)]; [by left|].
        right. exists key. split; [by right | done].
      * intros [?|(key & Hin & Hk & Hs)]; [by left|].
        apply elem_of_cons in Hin as [->|Hin]; [congruence|].
        right. by exists key.
Qed.

(** X1: a subject is in the completed set exactly when the pattern finds
    it in some listed key that ends in [.tar]; a listing without contents
    gives the empty set. *)
Theorem completed_set_exactly (s3 : S) (outbucket prefix subject : string) :
  subject ∈ get_subject_completed_set extract_subjects s3 outbucket prefix <->
  exists contents key,
    list_objects_v2 s3 outbucket prefix = Some contents /\
    key ∈ contents /\ Py.endswith key ".tar" = true /\
    subject ∈ extract_subjects key.
Proof.
  unfold get_subject_completed_set.
  destruct (list_objects_v2 s3 outbucket prefix) as [contents|].
  - rewrite completed_fold_elem. split.
    + intros [?%not_elem_of_empty|(key & ? & ? & ?)]; [done|].
      by exists contents, key.
    + intros (contents' & key & [= <-] & ? & ? & ?). right. by exists key.
  - split; [by intros ?%not_elem_of_empty|]. by intros (? & ? & [=] & _).
Qed.

(** X2: whatever the flags, the returned locations are the [location]
    fields of manifest rows taken in manifest order, each row at most
    once; when [allow_existing] is false none of these rows has a subject
    of the completed set; and the file names are the last path segments
    of the locations, in the same order. *)
Theorem resolve_inputs_in_manifest_order (s3 : S) fs rows b bucket c ae ef locs names :
  resolve_inputs extract_subjects s3 fs rows b bucket c ae ef = Ok (locs, names) ->
  (exists selected,
     sublist selected rows /\
     Forall2 (fun loc row =>
                row !! "location" = Some loc /\
                exists subject,
                  row !! "Subject" = Some subject /\
                  (ae = false ->
                   subject ∉ get_subject_completed_set extract_subjects s3 bucket
                               "/mnt/data1/out/"))
             locs selected) /\
  names = map Py.last_segment locs.
Proof.
  intros Hr.
  apply resolve_inputs_inv in Hr as (scanned & Hscan & _ & Hlocs & Hnames).
  split; [|done].
  unfold select_locations in Hscan.
  apply scan_rows_selected in Hscan as (selected & added & -> & Hsub & Hall).
  simpl in Hlocs. subst locs. rewrite slice_to_prefix.
  set (k := length (Py.slice_to _ _)).
  exists (take k selected). split.
  { etrans; [apply sublist_take | done]. }
  apply Forall2_take.
  eapply Forall2_impl; [exact Hall|].
  intros loc row (Hloc & subject & Hsubj & Hnot & _).
  split; [done|]. exists subject. split; [done|].
  by intros ->.
Qed.

Lemma visit_row_from_empty fs cs ef row acc :
  visit_row fs cs ef row acc
  = (l <- visit_row fs cs ef row [] ;; Ok (acc ++ l)).
Proof.
  unfold visit_row, getitem.
  destruct (row !! "Subject") as [subject|]; simpl; [|done].
  case_bool_decide; simpl; [|by rewrite app_nil_r].
  destruct (row !! "location") as [loc|]; simpl; [|done].
  destruct ef; [|done].
  destruct (file_in_failed fs subject) as [[|]|e]; simpl; [|done..].
  by rewrite app_nil_r.
Qed.

Lemma picked_visit fs cs ef row loc :
  picked fs cs ef loc row -> visit_row fs cs ef row [] = Ok [loc].
Proof.
  intros (Hloc & subject & Hsubj & Hnot & Hfail).
  unfold visit_row, getitem. rewrite Hsubj. simpl.
  rewrite bool_decide_eq_true_2 by done. rewrite Hloc. simpl.
  destruct ef; [|done]. by rewrite Hfail.
Qed.

Lemma elem_of_concat_of {A} (x : A) (l : list A) (ls : list (list A)) :
  x ∈ l -> l ∈ ls -> x ∈ concat ls.
Proof.
  intros Hx Hl. induction Hl as [|l' ls Hl IH]; simpl; apply elem_of_app; auto.
Qed.

(** A scan that does not end on a full batch has visited every row. *)
Lemma scan_rows_no_break fs cs b ef rows acc out :
  scan_rows fs cs b ef rows acc = Ok out ->
  Z.of_nat (length out) <> b ->
  exists ls,
    Forall2 (fun row l => visit_row fs cs ef row [] = Ok l) rows ls /\
    out = acc ++ concat ls.
Proof.
  revert acc. induction rows as [|row rest IH]; intros acc; simpl.
  - intros [= <-] _. exists []. split; [constructor | by rewrite app_nil_r].
  - intros Hb Hne. apply bind_ok in Hb as (acc' & Hv & Hrest).
    rewrite visit_row_from_empty in Hv.
    apply bind_ok in Hv as (l & Hl & [= <-]).
    destruct (Z.eqb_spec (Z.of_nat (length (acc ++ l))) b) as [Heq|_].
    + injection Hrest as <-. done.
    + destruct (IH _ Hrest Hne) as (ls & Hall & ->).
      exists (l :: ls). split; [by constructor|].
      simpl. by rewrite app_assoc.
Qed.

(** X3: when the result is shorter than the batch by at least
    [cores_per_inst] the batch was not filled: the scan went through the
    whole manifest, the location of every row that qualifies is in the
    scanned list, and the result is that list less its fewer than
    [cores_per_inst] last entries. *)
Theorem resolve_inputs_unfilled_batch (s3 : S) fs rows b bucket c ae ef locs names :
  0 < c ->
  resolve_inputs extract_subjects s3 fs rows b bucket c ae ef = Ok (locs, names) ->
  Z.of_nat (length locs) + c <= b ->
  exists scanned,
    select_locations extract_subjects s3 fs rows b bucket ae ef = Ok scanned /\
    locs = take (length locs) scanned /\
    Z.of_nat (length scanned) < Z.of_nat (length locs) + c /\
    forall row loc,
      row ∈ rows ->
      picked fs (if negb ae
                 then get_subject_completed_set extract_subjects s3 bucket
                        "/mnt/data1/out/"
                 else ∅) ef loc row ->
      loc ∈ scanned.
Proof.
  intros Hc Hr Hroom.
  apply resolve_inputs_inv in Hr as (scanned & Hscan & _ & Hlocs & _).
  pose proof (Z.mod_pos_bound (Z.of_nat (length scanned)) c Hc) as Hmod.
  pose proof (Z.mod_le (Z.of_nat (length scanned)) c ltac:(lia) Hc) as Hle.
  rewrite slice_to_is_take in Hlocs by lia.
  assert (Hlen : Z.of_nat (length locs)
                 = Z.of_nat (length scanned) - Z.of_nat (length scanned) mod c).
  { subst locs. rewrite length_take. lia. }
  exists scanned. split; [done|]. split.
  { rewrite Hlocs at 1. f_equal. lia. }
  split; [lia|].
  intros row loc Hin Hpicked.
  unfold select_locations in Hscan.
  apply scan_rows_no_break in Hscan as (ls & Hall & ->); [|lia].
  simpl. apply picked_visit in Hpicked.
  apply list_elem_of_lookup in Hin as [i Hi].
  destruct (Forall2_lookup_l _ _ _ _ _ Hall Hi) as (l & Hl & Hvisit).
  rewrite Hpicked in Hvisit. injection Hvisit as <-.
  apply (elem_of_concat_of _ [loc]); [left|].
  by eapply list_elem_of_lookup_2.
Qed.

End Selection.

(** ** Path segments *)

Lemma contains_eq (s p : string) :
  Py.contains s p
  = Py.startswith s p ||
    match s with
    | EmptyString => false
    | String _ r => Py.contains r p
    end.
Proof. by destruct s. Qed.

Lemma last_segment_eq (c : ascii) (r : string) :
  Py.last_segment (String c r)
  = if Py.contains r "/" then Py.last_segment r
    else if Py.ascii_eqb c "/" then r else String c r.
Proof. reflexivity. Qed.

Lemma ascii_eqb_sym (a b : ascii) : Py.ascii_eqb a b = Py.ascii_eqb b a.
Proof.
  destruct (Py.ascii_eqb a b) eqn:E.
  - apply ascii_eqb_true in E as ->. by rewrite ascii_eqb_refl.
  - destruct (Py.ascii_eqb b a) eqn:E'; [|done].
    apply ascii_eqb_true in E' as ->. by rewrite ascii_eqb_refl in E.
Qed.

Lemma last_segment_no_slash (s : string) :
  Py.contains (Py.last_segment s) "/" = false.
Proof.
  induction s as [|c r IH]; [done|].
  rewrite last_segment_eq.
  destruct (Py.contains r "/") eqn:Hr; [done|].
  destruct (Py.ascii_eqb c "/") eqn:Hc; [done|].
  rewrite contains_eq, Hr. simpl. by rewrite ascii_eqb_sym, Hc.
Qed.

Lemma last_segment_id (s : string) :
  Py.contains s "/" = false -> Py.last_segment s = s.
Proof.
  destruct s as [|c r]; [done|].
  rewrite contains_eq, last_segment_eq. simpl.
  rewrite (ascii_eqb_sym "/" c).
  destruct (Py.ascii_eqb c "/"); [done|]. simpl. by intros ->.
Qed.

Lemma last_segment_split (s : string) :
  exists dir,
    s = dir +:+ Py.last_segment s /\
    (dir = EmptyString \/ exists d, dir = d +:+ "/").
Proof.
  induction s as [|c r (dir & Hdir & Hshape)].
  - exists EmptyString. split; [done | by left].
  - rewrite last_segment_eq.
    destruct (Py.contains r "/") eqn:Hr.
    + exists (String c dir). split; [by rewrite str_app_cons, <- Hdir|].
      destruct Hshape as [->|[d ->]].
      * rewrite str_app_nil_l in Hdir.
        rewrite Hdir, last_segment_no_slash in Hr. discriminate.
      * right. by exists (String c d).
    + destruct (Py.ascii_eqb c "/") eqn:Hc.
      * apply ascii_eqb_true in Hc as ->.
        exists "/". split; [done|]. right. by exists EmptyString.
      * exists EmptyString. split; [done | by left].
Qed.

Lemma contains_app_r (a b p : string) :
  Py.contains b p = true -> Py.contains (a +:+ b) p = true.
Proof.
  intros Hb. induction a as [|c a IH]; [done|].
  rewrite str_app_cons, contains_eq, IH. apply orb_true_r.
Qed.

(** The last segment does not see a folder put in front. *)
Lemma last_segment_in_folder (d s : string) :
  Py.last_segment ((d +:+ "/") +:+ s) = Py.last_segment s.
Proof.
  induction d as [|c d IH].
  - rewrite str_app_nil_l.
    change ("/" +:+ s) with (String "/" s). rewrite last_segment_eq.
    destruct (Py.contains s "/") eqn:Hs; [done|].
    rewrite ascii_eqb_refl. by rewrite last_segment_id.
  - rewrite !str_app_cons, last_segment_eq, IH.
    rewrite str_app_assoc, contains_app_r; [done|].
    change ("/" +:+ s) with (String "/" s). rewrite contains_eq.
    cbn [Py.startswith]. by rewrite ascii_eqb_refl.
Qed.

(** ** Sizes of the chunks *)

Lemma chunk_steps (l : list string) (k : Z) :
  0 < k ->
  chunk l k
  = Ok (map (fun j : nat => take (Z.to_nat k) (drop (j * Z.to_nat k) l))
            (seq 0 (Z.to_nat ((Z.of_nat (length l) + k - 1) / k)))).
Proof.
  intros Hk. unfold chunk, Py.range.
  destruct (Z.eqb_spec k 0) as [|_]; [lia|]. simpl. f_equal.
  rewrite map_map.
  assert (Hlen : Py.range_len 0 (Z.of_nat (length l)) k
                 = (Z.of_nat (length l) + k - 1) / k).
  { unfold Py.range_len. destruct (Z.ltb_spec 0 k) as [_|]; [|lia].
    destruct (Z.ltb_spec 0 (Z.of_nat (length l))) as [Hn|Hn].
    - replace (Z.of_nat (length l) + k - 1)
        with (Z.of_nat (length l) - 0 - 1 + 1 * k) by lia.
      rewrite Z.div_add by lia. lia.
    - replace (Z.of_nat (length l)) with 0 by lia.
      symmetry. apply Z.div_small. lia. }
  rewrite Hlen. apply map_ext. intros j. by apply slice_step.
Qed.

(** The [j]-th chunk starts inside the list and has the group size, or
    what is left of the list when that is less. *)
Lemma chunk_lookup (l : list string) (k : Z) (chunks : list (list string))
    (j : nat) (g : list string) :
  0 < k ->
  chunk l k = Ok chunks ->
  chunks !! j = Some g ->
  (j * Z.to_nat k < length l)%nat /\
  length g = Nat.min (Z.to_nat k) (length l - j * Z.to_nat k).
Proof.
  intros Hk Hch Hj. rewrite chunk_steps in Hch by done. injection Hch as <-.
  rewrite list_lookup_fmap in Hj.
  destruct (seq 0 _ !! j) as [j'|] eqn:Hseq; [|done].
  injection Hj as <-. apply lookup_seq in Hseq as [-> Hlt]. simpl in *.
  split.
  - assert (Z.of_nat j < (Z.of_nat (length l) + k - 1) / k) as Hjz by lia.
    pose proof (Z.div_mod (Z.of_nat (length l) + k - 1) k ltac:(lia)) as Hdm.
    pose proof (Z.mod_pos_bound (Z.of_nat (length l) + k - 1) k Hk).
    nia.
  - by rewrite length_take, length_drop.
Qed.

Lemma chunk_count (l : list string) (k : Z) (chunks : list (list string)) :
  0 < k ->
  chunk l k = Ok chunks ->
  Z.of_nat (length chunks) = (Z.of_nat (length l) + k - 1) / k.
Proof.
  intros Hk Hch. rewrite chunk_steps in Hch by done. injection Hch as <-.
  rewrite length_map, length_seq.
  pose proof (Z.div_pos (Z.of_nat (length l) + k - 1) k ltac:(lia) Hk). lia.
Qed.

(** ** File names, errors and groups of a batch *)

Section Batches.

Context {S : Type} `{S3Client S}.
Variable extract_subjects : string -> list string.
Variable get_filetype : list string -> string * option string.

(** X4: the file names come one per location, in order; a file name has
    no slash, and its location is the file name behind a folder part
    that is empty or ends with a slash. *)
Theorem resolve_inputs_filenames (s3 : S) fs rows b bucket c ae ef locs names :
  resolve_inputs extract_subjects s3 fs rows b bucket c ae ef = Ok (locs, names) ->
  length names = length locs /\
  Forall2 (fun loc name =>
             Py.contains name "/" = false /\
             exists dir, loc = dir +:+ name /\
                         (dir = EmptyString \/ exists d, dir = d +:+ "/"))
          locs names.
Proof.
  intros Hr. apply resolve_inputs_inv in Hr as (_ & _ & _ & _ & ->).
  split; [by rewrite length_map|].
  induction locs as [|loc locs IH]; simpl; constructor; [|done].
  split; [apply last_segment_no_slash | apply last_segment_split].
Qed.

Lemma visit_row_returns fs cs ef row acc :
  is_Some (row !! "Subject") -> is_Some (row !! "location") ->
  (ef = true -> is_Some (fs !! FAILED_TXT)) ->
  exists acc', visit_row fs cs ef row acc = Ok acc'.
Proof.
  intros [subject Hs] [loc Hl] Hfile. unfold visit_row, getitem.
  rewrite Hs. simpl. case_bool_decide; [|eauto].
  rewrite Hl. simpl. destruct ef; [|eauto].
  destruct (Hfile eq_refl) as [content Hc].
  unfold file_in_failed, read_lines. rewrite Hc. simpl.
  destruct (scan_lines _ _); eauto.
Qed.


(** X6: with failures excluded and no file [failed.txt] (the batch size
    and [cores_per_inst] not being zero, every row having its two
    columns), the call ends in the error of the missing file as soon as
    the manifest has a row whose subject is not completed; and when every
    subject is completed it returns two empty lists, the file never
    being opened. *)
Theorem resolve_inputs_missing_ledger (s3 : S) fs rows b bucket c ae :
  fs !! FAILED_TXT = None ->
  b <> 0 ->
  c <> 0 ->
  Forall (fun row => is_Some (row !! "Subject") /\ is_Some (row !! "location")) rows ->
  let completed_set :=
    if negb ae
    then get_subject_completed_set extract_subjects s3 bucket "/mnt/data1/out/"
    else ∅ in
  (Exists (fun row => exists subject,
               row !! "Subject" = Some subject /\ subject ∉ completed_set) rows ->
   resolve_inputs extract_subjects s3 fs rows b bucket c ae true
   = Raise FileNotFoundError) /\
  (Forall (fun row => forall subject,
               row !! "Subject" = Some subject -> subject ∈ completed_set) rows ->
   resolve_inputs extract_subjects s3 fs rows b bucket c ae true = Ok ([], [])).
Proof.
  intros Hfile Hb Hc Hrows cs. unfold resolve_inputs, select_locations. fold cs.
  assert (Hz : (Z.of_nat 0 =? b) = false) by (apply Z.eqb_neq; lia).
  split.
  - intros Hex.
    assert (Hscan : scan_rows fs cs b true rows [] = Raise FileNotFoundError);
      [|by rewrite Hscan].
    induction Hrows as [|row rest [[subject Hs] [loc Hl]] Hrest IH];
      cbn [scan_rows].
    { by apply Exists_nil in Hex. }
    unfold visit_row, getitem. rewrite Hs. cbn [bind].
    case_bool_decide as Hin.
    + rewrite Hl. cbn [bind]. unfold file_in_failed, read_lines. by rewrite Hfile.
    + cbn [bind length]. rewrite Hz. apply IH.
      apply Exists_cons in Hex as [(s' & Hs' & Hnot)|?]; [|done].
      rewrite Hs in Hs'. injection Hs' as <-. by destruct Hnot.
  - intros Hall.
    assert (Hscan : scan_rows fs cs b true rows [] = Ok []).
    { induction Hall as [|row rest Hrow _ IH]; cbn [scan_rows]; [done|].
      apply Forall_cons in Hrows as [[[subject Hs] _] Hrest].
      unfold visit_row, getitem. rewrite Hs. cbn [bind].
      rewrite bool_decide_eq_false_2 by (intros Hnot; by apply Hnot, Hrow).
      cbn [bind length]. rewrite Hz. by apply IH. }
    rewrite Hscan. simpl. unfold Py.mod_.
    by destruct (Z.eqb_spec c 0) as [|_].
Qed.

End Batches.

(** ** Nested lists of any depth *)

Lemma nested_ind' (P : nested -> Prop) :
  (forall s, P (Str s)) ->
  (forall items, Forall P items -> P (Lst items)) ->
  forall v, P v.
Proof.
  intros Hstr Hlst. fix IH 1. intros [s|items]; [apply Hstr|].
  apply Hlst. induction items as [|v items IHitems]; constructor; [apply IH | done].
Qed.

Lemma map_ext_Forall {A B} (f g : A -> B) (l : list A) :
  Forall (fun x => f x = g x) l -> map f l = map g l.
Proof. induction 1 as [|x l Hx _ IH]; simpl; [done | by rewrite Hx, IH]. Qed.

(** X7: on a nested list of any depth [prepend_path] puts the path in
    front of every string and [basename] replaces every string by its
    base name; both keep the order of the strings and the nesting. *)
Theorem nested_helpers_any_depth (v : nested) (path : string) :
  (flatten (prepend_path v path) = map (fun s => path +:+ s) (flatten v) /\
   erase (prepend_path v path) = erase v) /\
  (flatten (basename v)
   = map (fun s => Py.splitext_root (Py.last_segment s)) (flatten v) /\
   erase (basename v) = erase v).
Proof.
  induction v as [s|items IH] using nested_ind'; [done|].
  simpl. rewrite !map_map.
  assert (H1 : map (fun x => flatten (prepend_path x path)) items
               = map (fun x => map (fun s => path +:+ s) (flatten x)) items).
  { apply map_ext_Forall. eapply Forall_impl; [exact IH|]. by intros x [[? _] _]. }
  assert (H2 : map (fun x => erase (prepend_path x path)) items = map erase items).
  { apply map_ext_Forall. eapply Forall_impl; [exact IH|]. by intros x [[_ ?] _]. }
  assert (H3 : map (fun x => flatten (basename x)) items
               = map (fun x => map (fun s => Py.splitext_root (Py.last_segment s))
                                   (flatten x)) items).
  { apply map_ext_Forall. eapply Forall_impl; [exact IH|]. by intros x [_ [? _]]. }
  assert (H4 : map (fun x => erase (basename x)) items = map erase items).
  { apply map_ext_Forall. eapply Forall_impl; [exact IH|]. by intros x [_ [_ ?]]. }
  rewrite H1, H2, H3, H4.
  rewrite <- !(map_map flatten), !concat_map_map. done.
Qed.

(** Base names do not see a folder put in front. *)
Lemma basename_in_folder (v : nested) (d : string) :
  basename (prepend_path v (d +:+ "/")) = basename v.
Proof.
  induction v as [s|items IH] using nested_ind'.
  - simpl. by rewrite last_segment_in_folder.
  - simpl. f_equal. rewrite map_map. by apply map_ext_Forall.
Qed.

(** ** More on the grouping engine *)

Section Groups.

Context {S : Type} `{S3Client S}.
Variable extract_subjects : string -> list string.
Variable get_filetype : list string -> string * option string.

(** The sizes of the chunks of a list. *)
Lemma chunk_sizes (l : list string) (k : Z) (chunks : list (list string)) :
  0 < k ->
  chunk l k = Ok chunks ->
  Forall (fun g => 0 < Z.of_nat (length g) <= k) chunks /\
  (forall j g, chunks !! j = Some g -> (j + 1 < length chunks)%nat ->
               Z.of_nat (length g) = k) /\
  (Z.of_nat (length l) mod k = 0 ->
   Forall (fun g => Z.of_nat (length g) = k) chunks).
Proof.
  intros Hk Hch.
  pose proof (chunk_count l k chunks Hk Hch) as Hcount.
  pose proof (Z.div_mod (Z.of_nat (length l) + k - 1) k ltac:(lia)) as Hdm.
  pose proof (Z.mod_pos_bound (Z.of_nat (length l) + k - 1) k Hk) as Hmb.
  split; [|split].
  - apply Forall_lookup. intros j g Hj.
    destruct (chunk_lookup l k chunks j g Hk Hch Hj) as [Hstart Hlen]. lia.
  - intros j g Hj Hnext.
    destruct (chunk_lookup l k chunks j g Hk Hch Hj) as [Hstart Hlen].
    assert (Z.of_nat (j + 1) * k < Z.of_nat (length l)); [|nia]. nia.
  - intros Hmod. apply Forall_lookup. intros j g Hj.
    destruct (chunk_lookup l k chunks j g Hk Hch Hj) as [Hstart Hlen].
    pose proof (Z.div_mod (Z.of_nat (length l)) k ltac:(lia)) as Hdm'.
    rewrite Hmod in Hdm'.
    assert (Z.of_nat j < Z.of_nat (length l) / k) by nia.
    nia.
Qed.

(** X8: for a positive group size there are as many groups as the size
    goes into the number of file names, rounded up; no group is empty or
    larger than the size; every group but the last has exactly the size,
    and so has the last when the size divides the number of file names. *)
Theorem group_inputs_group_sizes (filenames : list string) (k : Z) :
  0 < k ->
  exists ss gs idx,
    group_inputs get_filetype filenames k = Ok (of_groups ss, of_groups gs, idx) /\
    Z.of_nat (length gs) = (Z.of_nat (length filenames) + k - 1) / k /\
    Forall (fun g => 0 < Z.of_nat (length g) <= k) gs /\
    (forall j g, gs !! j = Some g -> (j + 1 < length gs)%nat ->
                 Z.of_nat (length g) = k) /\
    (Z.of_nat (length filenames) mod k = 0 ->
     Forall (fun g => Z.of_nat (length g) = k) gs).
Proof.
  intros Hk.
  destruct (group_inputs_positive get_filetype filenames k Hk)
    as (chunks & Hch & _ & Hg).
  destruct (chunk_sizes filenames k chunks Hk Hch) as (Hall & Hinner & Hfull).
  eexists _, _, _. split; [exact Hg|].
  split; [rewrite length_map; by apply chunk_count|].
  split; [by rewrite Forall_map; eapply Forall_impl; [exact Hall|];
          intros g; rewrite length_map|].
  split.
  - intros j g Hj Hnext. rewrite length_map in Hnext.
    rewrite list_lookup_fmap in Hj.
    destruct (chunks !! j) as [g0|] eqn:Hg0; [|done].
    injection Hj as <-. rewrite length_map. by eapply Hinner.
  - intros Hmod. rewrite Forall_map. eapply Forall_impl; [exact (Hfull Hmod)|].
    intros g. by rewrite length_map.
Qed.

(** X9: [group_inputs] raises exactly when the group size is zero, and
    then it is the [ValueError] of [range]; for every other size it
    returns. *)
Theorem group_inputs_raises_iff_zero (filenames : list string) (k : Z) :
  (k = 0 -> group_inputs get_filetype filenames k = Raise ValueError) /\
  (k <> 0 -> exists r, group_inputs get_filetype filenames k = Ok r).
Proof.
  split.
  - intros ->. unfold group_inputs, chunk.
    by destruct (get_filetype filenames) as [ftype idx_ext].
  - intros Hk. destruct (Z.lt_trichotomy k 0) as [Hneg|[?|Hpos]]; [|done|].
    + unfold group_inputs, chunk, Py.range.
      destruct (get_filetype filenames) as [ftype [ext|]];
        destruct (Z.eqb_spec k 0) as [|_]; try done; simpl;
        [destruct (Py.str_eqb ext EmptyString)|]; eauto.
    + destruct (group_inputs_positive get_filetype filenames k Hpos)
        as (chunks & _ & _ & Hg). eauto.
Qed.

(** X10: whenever [group_inputs] returns, the subject labels are the
    base names of the path-qualified inputs: [basename] applied to
    [grouped_input_paths] gives [subjects]. *)
Theorem group_inputs_subjects_of_paths (filenames : list string) (k : Z)
    (subjects grouped_input_paths : nested) (grouped_idx_paths : option nested) :
  group_inputs get_filetype filenames k
  = Ok (subjects, grouped_input_paths, grouped_idx_paths) ->
  basename grouped_input_paths = subjects.
Proof.
  unfold group_inputs. destruct (get_filetype filenames) as [ftype idx_ext].
  intros Hg. apply bind_ok in Hg as (chunks & _ & Hg).
  assert (Hpath : ftype +:+ "s/" = (ftype +:+ "s") +:+ "/")
    by (by rewrite str_app_assoc).
  assert (Hbase : basename (prepend_path (of_groups chunks) (ftype +:+ "s/"))
                  = basename (of_groups chunks))
    by (rewrite Hpath; apply basename_in_folder).
  destruct idx_ext as [ext|].
  - destruct (Py.str_eqb ext EmptyString).
    + by injection Hg as <- <- _.
    + apply bind_ok in Hg as (starts & _ & Hg). by injection Hg as <- <- _.
  - by injection Hg as <- <- _.
Qed.

Lemma resolve_inputs_lengths (s3 : S) fs rows b bucket c ae ef locs names :
  0 < c ->
  resolve_inputs extract_subjects s3 fs rows b bucket c ae ef = Ok (locs, names) ->
  length names = length locs /\ Z.of_nat (length locs) mod c = 0.
Proof.
  intros Hc Hr.
  apply resolve_inputs_inv in Hr as (scanned & _ & _ & Hlocs & ->).
  split; [by rewrite length_map|].
  pose proof (Z.mod_pos_bound (Z.of_nat (length scanned)) c Hc).
  pose proof (Z.mod_le (Z.of_nat (length scanned)) c ltac:(lia) Hc).
  rewrite slice_to_is_take in Hlocs by lia.
  subst locs. rewrite length_take.
  replace (Z.of_nat (_ `min` _))
    with (Z.of_nat (length scanned) - Z.of_nat (length scanned) mod c) by lia.
  rewrite Zminus_mod, Z.mod_mod, Z.sub_diag by lia. apply Z.mod_0_l. lia.
Qed.

(** X11: the file names of a batch, grouped by [cores_per_inst], fill
    every group: [group_inputs] on the file names that [resolve_inputs]
    returns, with the same positive [cores_per_inst] as group size, gives
    groups of exactly that many entries each, none shorter. *)
Theorem batch_groups_are_full (s3 : S) fs rows b bucket c ae ef locs names :
  0 < c ->
  resolve_inputs extract_subjects s3 fs rows b bucket c ae ef = Ok (locs, names) ->
  exists ss gs idx,
    group_inputs get_filetype names c = Ok (of_groups ss, of_groups gs, idx) /\
    Forall (fun g => Z.of_nat (length g) = c) gs /\
    Z.of_nat (length gs) * c = Z.of_nat (length locs).
Proof.
  intros Hc Hr.
  destruct (resolve_inputs_lengths s3 fs rows b bucket c ae ef locs names Hc Hr)
    as [Hlen Hmod].
  destruct (group_inputs_positive get_filetype names c Hc)
    as (chunks & Hch & _ & Hg).
  destruct (chunk_sizes names c chunks Hc Hch) as (_ & _ & Hfull).
  rewrite Hlen in Hfull. specialize (Hfull Hmod).
  eexists _, _, _. split; [exact Hg|]. split.
  - rewrite Forall_map. eapply Forall_impl; [exact Hfull|].
    intros g. by rewrite length_map.
  - rewrite length_map. rewrite (chunk_count names c chunks Hc Hch), Hlen.
    pose proof (Z.div_mod (Z.of_nat (length locs)) c ltac:(lia)) as Hdm.
    rewrite Hmod in Hdm.
    replace (Z.of_nat (length locs) + c - 1)
      with (c - 1 + (Z.of_nat (length locs) / c) * c) by lia.
    rewrite Z.div_add, Z.div_small by lia. lia.
Qed.

End Groups.

(** ** More on the failure check *)

Lemma lstrip_head (s : string) :
  Py.lstrip s = EmptyString \/
  exists c r, Py.lstrip s = String c r /\ Py.isspace c = false.
Proof.
  induction s as [|c r IH]; [by left|].
  simpl. destruct (Py.isspace c) eqn:Hc; [done|]. right. by exists c, r.
Qed.

Lemma rstrip_idempotent (s : string) : Py.rstrip (Py.rstrip s) = Py.rstrip s.
Proof.
  induction s as [|c r IH]; [done|].
  rewrite rstrip_eq. destruct (Py.rstrip r) as [|c' r'] eqn:Hr.
  - destruct (Py.isspace c) eqn:Hc; [done|].
    rewrite rstrip_eq. simpl. by rewrite Hc.
  - rewrite rstrip_eq, IH. done.
Qed.

Lemma rstrip_keeps_head (c : ascii) (r : string) :
  Py.isspace c = false -> exists r', Py.rstrip (String c r) = String c r'.
Proof.
  intros Hc. rewrite rstrip_eq. destruct (Py.rstrip r); [|eauto].
  rewrite Hc. eauto.
Qed.

(** Stripping twice is stripping once. *)
Lemma strip_idempotent (s : string) : Py.strip (Py.strip s) = Py.strip s.
Proof.
  unfold Py.strip. destruct (lstrip_head s) as [->|(c & r & -> & Hc)]; [done|].
  destruct (rstrip_keeps_head c r Hc) as [r' Hr]. rewrite Hr.
  simpl. rewrite Hc. rewrite <- Hr. apply rstrip_idempotent.
Qed.

(** X12: the failure check only ever finds a subject that has no white
    space at its ends: for a subject that [strip] would change, the
    answer is never true, whatever the ledger holds. *)
Theorem file_in_failed_needs_stripped_subject (fs : gmap string string)
    (subject : string) :
  file_in_failed fs subject = Ok true -> Py.strip subject = subject.
Proof.
  intros Hfound. apply file_in_failed_recorded in Hfound as (content & line & _ & _ & <-).
  apply strip_idempotent.
Qed.

Lemma scan_lines_app (ls ls' : list string) (subject : string) :
  scan_lines (ls ++ ls') subject = scan_lines ls subject || scan_lines ls' subject.
Proof.
  induction ls as [|l ls IH]; [done|].
  simpl. by destruct (Py.str_eqb (Py.strip l) subject).
Qed.

(** X13: writing a subject and a line feed at the end of a ledger that
    is empty or ends its last line makes the failure check find that
    subject, provided it has no newline character and no white space at
    its ends; and every subject found before is still found. *)
Theorem file_in_failed_after_append (fs : gmap string string)
    (old subject : string) :
  ends_lf old = true ->
  no_newline subject = true ->
  Py.strip subject = subject ->
  file_in_failed (<[ FAILED_TXT := old +:+ (subject +:+ Py.nl) ]> fs) subject = Ok true /\
  (forall other,
     file_in_failed (<[ FAILED_TXT := old ]> fs) other = Ok true ->
     file_in_failed (<[ FAILED_TXT := old +:+ (subject +:+ Py.nl) ]> fs) other = Ok true).
Proof.
  intros Hold Hclean Hstrip.
  assert (Hlines : Py.lines (Py.translate_newlines (old +:+ (subject +:+ Py.nl)))
                   = Py.lines (Py.translate_newlines old) ++ [subject +:+ Py.nl]).
  { rewrite lines_translate_app by done.
    change (subject +:+ Py.nl) with (subject +:+ String Py.LF EmptyString).
    by rewrite translate_line, lines_line. }
  unfold file_in_failed, read_lines. rewrite !lookup_insert_eq.
  cbn [bind]. rewrite Hlines. split.
  - rewrite scan_lines_app. f_equal. simpl.
    rewrite strip_line, Hstrip, str_eqb_refl. apply orb_true_r.
  - intros other [= Hother]. by rewrite scan_lines_app, Hother.
Qed.

(** ** More on the run audit *)

Section JobIds.

Context {S : Type} `{S3Client S}.
Variable iter_set : gset string -> list string.

Lemma collect_job_ids_from (contents : list string) (start : gset string)
    (job_id : string) :
  job_id ∈ foldl (fun job_ids key =>
                    if Py.endswith key POSTRUN_JSON
                    then job_ids ∪ {[ Py.split_head key POSTRUN_JSON ]}
                    else job_ids)
                 start contents
  <-> job_id ∈ start \/
      exists key, key ∈ contents /\ Py.endswith key POSTRUN_JSON = true /\
                  job_id = Py.split_head key POSTRUN_JSON.
Proof.
  revert start. induction contents as [|k rest IH]; intros start; simpl.
  - split; [by left|]. intros [?|(key & Hin & _)]; [done | inversion Hin].
  - rewrite IH. destruct (Py.endswith k POSTRUN_JSON) eqn:He; split.
    + intros [[?| ->%elem_of_singleton]%elem_of_union|(key & Hin & ? & ?)].
      * by left.
      * right. exists k. split; [left | done].
      * right. exists key. split; [by right | done].
    + intros [?|(key & Hin & Hk & ->)].
      * left. apply elem_of_union. by left.
      * apply elem_of_cons in Hin as [->|Hin].
        -- left. apply elem_of_union. right. by apply elem_of_singleton.
        -- right. by exists key.
    + intros [?|(key & Hin & ? & ?)]; [by left|].
      right. exists key. split; [by right | done].
    + intros [?|(key & Hin & Hk & ->)]; [by left|].
      apply elem_of_cons in Hin as [->|Hin]; [congruence|].
      right. by exists key.
Qed.

(** X14: when the listing has no contents the call raises the key error
    of ['Contents']; otherwise it returns, each once, the job
    identifiers of the listed keys that end in [.postrun.json] (a set
    being iterated over its elements, each once). *)
Theorem get_unique_job_ids_exactly (s3 : S) (bucket_name jobid_prefix : string) :
  (forall X x, x ∈ iter_set X <-> x ∈ X) ->
  (forall X, NoDup (iter_set X)) ->
  match list_objects_v2 s3 bucket_name jobid_prefix with
  | None =>
      get_unique_job_ids_from_s3_bucket iter_set s3 bucket_name jobid_prefix
      = Raise (KeyError "Contents")
  | Some contents =>
      exists job_ids,
        get_unique_job_ids_from_s3_bucket iter_set s3 bucket_name jobid_prefix
        = Ok job_ids /\
        NoDup job_ids /\
        forall job_id,
          job_id ∈ job_ids <->
          exists key, key ∈ contents /\ Py.endswith key POSTRUN_JSON = true /\
                      job_id = Py.split_head key POSTRUN_JSON
  end.
Proof.
  intros Hiter Hnodup. unfold get_unique_job_ids_from_s3_bucket.
  destruct (list_objects_v2 s3 bucket_name jobid_prefix) as [contents|]; [|done].
  eexists. split; [done|]. split; [apply Hnodup|].
  intros job_id. rewrite Hiter. unfold collect_job_ids.
  rewrite collect_job_ids_from. split; [|by right].
  by intros [?%not_elem_of_empty|?].
Qed.

(** X15: over one and the same listing, every identifier that the audit
    counts as failed is among the unique job identifiers. *)
Theorem failed_among_job_ids (s3 : S) (outbucket : string) (contents : list string) :
  collect_failed s3 outbucket contents ⊆ collect_job_ids contents.
Proof.
  intros job_id Hin. unfold collect_failed in Hin.
  apply collect_failed_from in Hin as [?%not_elem_of_empty|(key & ? & [? _] & ?)];
    [done|].
  unfold collect_job_ids. apply collect_job_ids_from. right. by exists key.
Qed.

Lemma terminated_ids (ids : list string) :
  Forall (fun j => no_newline j = true) ids ->
  Forall terminated_line (map (fun j => j +:+ Py.nl) ids).
Proof.
  intros Hids. apply Forall_map. eapply Forall_impl; [exact Hids|].
  intros j Hj. by exists j.
Qed.

(** X16: after an audit the file [failed_runs.txt] holds, each once, the
    lines it held before and one line per failed identifier, and nothing
    else (the file being absent, empty or ended by a line feed before,
    the identifiers having no newline character, a set being iterated
    over its elements, each once). *)
Theorem process_postrun_files_lines (s3 : S) (fs : gmap string string)
    (jobid_prefix outbucket : string) :
  (forall X x, x ∈ iter_set X <-> x ∈ X) ->
  (forall X, NoDup (iter_set X)) ->
  ends_lf (default EmptyString (fs !! FAILED_RUNS_TXT)) = true ->
  (forall job_id, job_id ∈ failed_job_ids_of s3 jobid_prefix outbucket ->
                  no_newline job_id = true) ->
  exists s3' fs' content',
    process_postrun_files iter_set s3 fs jobid_prefix outbucket = Ok (s3', fs') /\
    fs' !! FAILED_RUNS_TXT = Some content' /\
    NoDup (Py.lines (Py.translate_newlines content')) /\
    forall line,
      line ∈ Py.lines (Py.translate_newlines content') <->
      line ∈ Py.lines (Py.translate_newlines
                         (default EmptyString (fs !! FAILED_RUNS_TXT))) \/
      exists job_id, job_id ∈ failed_job_ids_of s3 jobid_prefix outbucket /\
                     line = job_id +:+ Py.nl.
Proof.
  intros Hiter Hnodup Hold Hclean.
  unfold process_postrun_files, failed_job_ids_of, append_lines, write_lines,
    read_lines in *.
  set (s3r := move_logs_to_root s3 jobid_prefix outbucket) in *.
  set (failed := collect_failed s3r outbucket _) in *.
  set (old := default EmptyString (fs !! FAILED_RUNS_TXT)) in *.
  rewrite lookup_insert_eq. cbn beta iota delta [bind].
  set (written := old +:+ _).
  assert (Hids : Forall (fun j => no_newline j = true) (iter_set failed)).
  { apply Forall_forall. intros j Hj. by apply Hclean, Hiter. }
  assert (Hread : Py.lines (Py.translate_newlines written)
                  = Py.lines (Py.translate_newlines old)
                    ++ map (fun j => j +:+ Py.nl) (iter_set failed)).
  { unfold written. rewrite lines_translate_app by done.
    by rewrite lines_translate_concat by (by apply terminated_ids). }
  assert (Hterm : Forall terminated_line
            (iter_set (list_to_set (Py.lines (Py.translate_newlines written))))).
  { apply Forall_forall. intros line Hline.
    apply Hiter, elem_of_list_to_set in Hline.
    assert (Hall : Forall terminated_line (Py.lines (Py.translate_newlines written))).
    { apply lines_translate_terminated. unfold written.
      apply ends_lf_app; [done | apply ends_lf_appended]. }
    by eapply Forall_forall in Hall. }
  eexists _, _, _. split; [reflexivity|].
  split; [apply lookup_insert_eq|].
  rewrite lines_translate_concat by done.
  split; [apply Hnodup|].
  intros line. rewrite Hiter, elem_of_list_to_set, Hread, elem_of_app.
  rewrite list_elem_of_fmap. split.
  - intros [?|(j & -> & Hj)]; [by left|]. right. exists j. by rewrite <- Hiter.
  - intros [?|(j & Hj & ->)]; [by left|]. right. exists j. by rewrite Hiter.
Qed.

End JobIds.

(** ** Moving and removing objects *)

Section Moves.

Context {S : Type} `{S3Client S} `{!S3Laws S}.

(** A key that no move of the loop reads or writes keeps its body. *)
Lemma move_all_frame (new : string -> string) (b : string)
    (contents : list string) (s : S) (t : string) :
  (forall k, k ∈ contents -> t <> new k /\ t <> k) ->
  get_object (foldl (fun s k => delete_object (copy_object s b (new k) b k) b k)
                    s contents) b t
  = get_object s b t.
Proof.
  revert s. induction contents as [|x rest IH]; intros s Hfree; [done|].
  simpl. rewrite IH by (intros k Hk; apply Hfree; by right).
  destruct (Hfree x) as [Hnew Hold]; [left|].
  by rewrite get_other_delete, get_other_copy.
Qed.

(** Every moved body is found under its new key, when no two keys get
    the same new key and no new key is itself a key to move. *)
Lemma move_all_bodies (new : string -> string) (b : string)
    (contents : list string) (s : S) (k : string) :
  NoDup (map new contents) ->
  (forall k1 k2, k1 ∈ contents -> k2 ∈ contents -> new k1 <> k2) ->
  k ∈ contents ->
  get_object (foldl (fun s k => delete_object (copy_object s b (new k) b k) b k)
                    s contents) b (new k)
  = get_object s b k.
Proof.
  revert s. induction contents as [|x rest IH]; intros s Hnodup Hapart Hin.
  { inversion Hin. }
  simpl in Hnodup. apply NoDup_cons in Hnodup as [Hx Hrest]. simpl.
  apply elem_of_cons in Hin as [->|Hin].
  - rewrite move_all_frame.
    + rewrite get_other_delete by (apply Hapart; left).
      apply get_after_copy.
    + intros k Hk. split.
      * intros Heq. apply Hx. rewrite Heq. by apply list_elem_of_fmap_2.
      * apply Hapart; [left | by right].
  - rewrite IH; [| done | intros k1 k2 ? ?; apply Hapart; by right | done].
    assert (k <> x).
    { intros ->. apply Hx. by apply list_elem_of_fmap_2. }
    rewrite get_other_delete by done.
    apply get_other_copy. intros Heq. by apply (Hapart x k); [left | right |].
Qed.

Lemma startswith_prefix_differs (p a b k t : string) (x y : ascii) :
  x <> y ->
  Py.startswith k (p +:+ String x a) = true ->
  k <> p +:+ String y t.
Proof.
  intros Hxy [rest ->]%startswith_inv Heq.
  rewrite str_app_assoc in Heq. apply (inj (String.app p)) in Heq.
  rewrite str_app_cons in Heq. by injection Heq.
Qed.

(** X17: [move_logs_to_folder] keeps every log it moves: each key listed
    under the job prefix has its body, as it was before the call, under
    the key made of the folder and the old key (the listing holding no
    key twice and only keys that start with the prefix asked for). *)
Theorem move_logs_to_folder_keeps_bodies (s3 : S) (jobid_prefix outbucket : string)
    (contents : list string) :
  list_objects_v2 (put_object s3 outbucket (jobid_prefix +:+ "/")) outbucket
    (jobid_prefix +:+ ".") = Some contents ->
  NoDup contents ->
  Forall (fun k => Py.startswith k (jobid_prefix +:+ ".") = true) contents ->
  forall file_name,
    file_name ∈ contents ->
    get_object (move_logs_to_folder s3 jobid_prefix outbucket) outbucket
      (jobid_prefix +:+ "/" +:+ file_name)
    = get_object s3 outbucket file_name.
Proof.
  intros Hlist Hnodup Hprefix file_name Hin.
  unfold move_logs_to_folder. rewrite Hlist.
  change (foldl _ ?st contents)
    with (foldl (fun s k => delete_object
                   (copy_object s outbucket
                      ((fun k => jobid_prefix +:+ "/" +:+ k) k) outbucket k)
                   outbucket k) st contents).
  assert (Hdiff : forall k t, k ∈ contents -> k <> jobid_prefix +:+ "/" +:+ t).
  { intros k t Hk. rewrite Forall_forall in Hprefix.
    apply (startswith_prefix_differs _ EmptyString EmptyString _ _ "." "/");
      [done | by apply Hprefix]. }
  rewrite (move_all_bodies (fun k => jobid_prefix +:+ "/" +:+ k)).
  - apply get_other_put. apply (Hdiff _ EmptyString Hin).
  - apply NoDup_fmap_2; [|done]. intros k1 k2 Heq.
    by apply (inj (String.app jobid_prefix)), (inj (String.app "/")) in Heq.
  - intros k1 k2 _ Hk2 Heq. by apply (Hdiff k2 k1).
  - done.
Qed.

(** X18: [move_logs_to_root] keeps every log it moves: each key listed
    in the folder of the job has its body, as it was before the call,
    under its last path segment (no two listed keys having the same last
    segment, the listing holding only keys that start with the prefix
    asked for). *)
Theorem move_logs_to_root_keeps_bodies (s3 : S) (jobid_prefix outbucket : string)
    (contents : list string) :
  list_objects_v2 s3 outbucket (jobid_prefix +:+ "/" +:+ jobid_prefix +:+ ".")
  = Some contents ->
  NoDup (map Py.last_segment contents) ->
  Forall (fun k => Py.startswith k (jobid_prefix +:+ "/" +:+ jobid_prefix +:+ ".") = true)
         contents ->
  forall file_name,
    file_name ∈ contents ->
    get_object (move_logs_to_root s3 jobid_prefix outbucket) outbucket
      (Py.last_segment file_name)
    = get_object s3 outbucket file_name.
Proof.
  intros Hlist Hnodup Hprefix file_name Hin.
  unfold move_logs_to_root. rewrite Hlist.
  change (foldl _ ?st contents)
    with (foldl (fun s k => delete_object
                   (copy_object s outbucket (Py.last_segment k) outbucket k)
                   outbucket k) st contents).
  apply (move_all_bodies Py.last_segment); [done | | done].
  intros k1 k2 _ Hk2 Heq.
  rewrite Forall_forall in Hprefix.
  destruct (startswith_inv _ _ (Hprefix k2 Hk2)) as [rest Hrest].
  assert (Hslash : Py.contains k2 "/" = true).
  { rewrite Hrest, !str_app_assoc. apply contains_app_r.
    change ("/" +:+ ?t) with (String "/" t). rewrite contains_eq.
    cbn [Py.startswith]. by rewrite ascii_eqb_refl. }
  rewrite <- Heq, last_segment_no_slash in Hslash. discriminate.
Qed.

End Moves.

Section Removal.

Context {S : Type} `{S3Client S}.
Variable get_filetype : list string -> string * option string.

Lemma interleave_perm {A B} (f g : A -> B) (l : list A) :
  concat (map (fun x => [f x; g x]) l) ≡ₚ map f l ++ map g l.
Proof.
  induction l as [|x l IH]; simpl; [done|].
  constructor. rewrite IH. apply Permutation_middle.
Qed.

(** X19: [remove_inputs_from_file] deletes, one call per key, exactly the
    keys that [group_inputs] hands out for the same file names: the
    path-qualified inputs and, when there is an index extension, the
    path-qualified index files (in another order, each file's index
    right after the file). *)
Theorem remove_inputs_deletes_group_paths (s3 : S) (filenames : list string)
    (inbucket : string) (k : Z) (subjects grouped_input_paths : nested)
    (grouped_idx_paths : option nested) :
  0 < k ->
  group_inputs get_filetype filenames k
  = Ok (subjects, grouped_input_paths, grouped_idx_paths) ->
  exists keys,
    remove_inputs_from_file get_filetype s3 filenames inbucket
    = foldl (fun s key => delete_object s inbucket key) s3 keys /\
    keys ≡ₚ flatten grouped_input_paths
            ++ from_option flatten [] grouped_idx_paths.
Proof.
  intros Hk Hg.
  destruct (group_inputs_positive get_filetype filenames k Hk)
    as (chunks & _ & Hcat & Hg').
  rewrite Hg in Hg'. injection Hg' as -> -> ->.
  unfold remove_inputs_from_file.
  destruct (get_filetype filenames) as [ftype idx_ext]. cbn [fst snd].
  rewrite flatten_groups, concat_map_map, Hcat.
  assert (Hplain : forall s : S,
            foldl (fun s3 file => delete_object s3 inbucket (ftype +:+ "s/" +:+ file))
                  s filenames
            = foldl (fun s key => delete_object s inbucket key) s
                    (map (fun s => (ftype +:+ "s/") +:+ s) filenames)).
  { clear. induction filenames as [|f l IH]; intros s; [done|].
    simpl. by rewrite IH, str_app_assoc. }
  destruct idx_ext as [ext|].
  - destruct (Py.str_eqb ext EmptyString).
    + eexists. split; [apply Hplain|]. simpl. by rewrite app_nil_r.
    + exists (concat (map (fun f => [(ftype +:+ "s/") +:+ f;
                                     (ftype +:+ "sidx/") +:+ (f +:+ "." +:+ ext)])
                          filenames)).
      split.
      * clear. revert s3. induction filenames as [|f l IH]; intros s3; [done|].
        simpl. by rewrite IH, !str_app_assoc.
      * cbn [from_option]. rewrite flatten_groups, concat_map_map, Hcat.
        apply interleave_perm.
  - eexists. split; [apply Hplain|]. simpl. by rewrite app_nil_r.
Qed.

End Removal.

(** ** The in-memory store obeys the laws *)

Lemma mem_filter_removed (st : MemS3.store) (b k : string) :
  filter (fun o => MemS3.is_at b k o = true) (MemS3.remove st b k) = [].
Proof.
  unfold MemS3.remove, MemS3.store in *. induction st as [|o st IH]; [done|].
  rewrite filter_cons. case_decide as Ho; [|done].
  rewrite filter_cons. case_decide; [congruence | done].
Qed.

Lemma mem_filter_other (st : MemS3.store) (b k k' : string) :
  k' <> k ->
  filter (fun o => MemS3.is_at b k' o = true) (MemS3.remove st b k)
  = filter (fun o => MemS3.is_at b k' o = true) st.
Proof.
  intros Hne. unfold MemS3.remove, MemS3.store in *.
  induction st as [|o st IH]; [done|].
  rewrite !(filter_cons _ o). case_decide as Ho.
  - rewrite filter_cons. by rewrite IH.
  - rewrite IH. case_decide as Ho'; [|done].
    apply not_false_is_true in Ho. unfold MemS3.is_at in Ho, Ho'.
    apply andb_true_iff in Ho as [_ Hk%str_eqb_true].
    apply andb_true_iff in Ho' as [_ Hk'%str_eqb_true]. congruence.
Qed.

Lemma mem_body_put (st : MemS3.store) (b k body : string) :
  MemS3.body_of (MemS3.remove st b k ++ [(b, k, body)]) b k = body.
Proof.
  unfold MemS3.body_of, MemS3.store in *.
  rewrite filter_app, mem_filter_removed. simpl.
  rewrite filter_cons. case_decide as Ho; [done|].
  exfalso. apply Ho. unfold MemS3.is_at. simpl. by rewrite !str_eqb_refl.
Qed.

Lemma mem_body_other (st : MemS3.store) (b k k' body : string) :
  k' <> k ->
  MemS3.body_of (MemS3.remove st b k ++ [(b, k, body)]) b k'
  = MemS3.body_of st b k'.
Proof.
  intros Hne. unfold MemS3.body_of, MemS3.store in *.
  rewrite filter_app, mem_filter_other by done.
  rewrite filter_cons. case_decide as Ho.
  - unfold MemS3.is_at in Ho. simpl in Ho.
    apply andb_true_iff in Ho as [_ Hk%str_eqb_true]. congruence.
  - by rewrite filter_nil, app_nil_r.
Qed.

Lemma mem_s3_laws : S3Laws MemS3.store.
Proof.
  split; simpl.
  - intros. apply mem_body_put.
  - intros. by apply mem_body_other.
  - intros s b k k' Hne. unfold MemS3.body_of, MemS3.store in *.
    by rewrite mem_filter_other.
  - intros. by apply mem_body_other.
Qed.

(** ** The added properties on the sample inputs *)

(** The sample manifest, a batch of three and two cores per instance. *)
Lemma resolve_inputs_in_manifest_order_witness :
  resolve_inputs Sample.no_subjects Sample.empty_store ∅ Sample.rows 3 "out" 2 false false
  = Ok (["s3://b/crams/ABC-RS1.cram"; "s3://b/crams/DEF-RS2.cram"],
        ["ABC-RS1.cram"; "DEF-RS2.cram"]) /\
  ((exists selected,
      sublist selected Sample.rows /\
      Forall2 (fun loc row =>
                 row !! "location" = Some loc /\
                 exists subject,
                   row !! "Subject" = Some subject /\
                   (false = false ->
                    subject ∉ get_subject_completed_set Sample.no_subjects
                                Sample.empty_store "out" "/mnt/data1/out/"))
              ["s3://b/crams/ABC-RS1.cram"; "s3://b/crams/DEF-RS2.cram"] selected) /\
   ["ABC-RS1.cram"; "DEF-RS2.cram"]
   = map Py.last_segment ["s3://b/crams/ABC-RS1.cram"; "s3://b/crams/DEF-RS2.cram"]).
Proof.
  split; [vm_compute; reflexivity|].
  apply (resolve_inputs_in_manifest_order Sample.no_subjects Sample.empty_store ∅
           Sample.rows 3 "out" 2 false false).
  vm_compute. reflexivity.
Defined.

(** The sample manifest with room for five: the batch is not filled. *)
Lemma resolve_inputs_unfilled_batch_witness :
  0 < 2 /\
  resolve_inputs Sample.no_subjects Sample.empty_store ∅ Sample.rows 5 "out" 2 false false
  = Ok (["s3://b/crams/ABC-RS1.cram"; "s3://b/crams/DEF-RS2.cram"],
        ["ABC-RS1.cram"; "DEF-RS2.cram"]) /\
  Z.of_nat (length ["s3://b/crams/ABC-RS1.cram"; "s3://b/crams/DEF-RS2.cram"]) + 2 <= 5 /\
  exists scanned,
    select_locations Sample.no_subjects Sample.empty_store ∅ Sample.rows 5 "out"
      false false = Ok scanned /\
    ["s3://b/crams/ABC-RS1.cram"; "s3://b/crams/DEF-RS2.cram"]
    = take (length ["s3://b/crams/ABC-RS1.cram"; "s3://b/crams/DEF-RS2.cram"]) scanned /\
    Z.of_nat (length scanned)
    < Z.of_nat (length ["s3://b/crams/ABC-RS1.cram"; "s3://b/crams/DEF-RS2.cram"]) + 2 /\
    forall row loc,
      row ∈ Sample.rows ->
      picked ∅ (if negb false
                then get_subject_completed_set Sample.no_subjects Sample.empty_store
                       "out" "/mnt/data1/out/"
                else ∅) false loc row ->
      loc ∈ scanned.
Proof.
  split; [lia|]. split; [vm_compute; reflexivity|]. split; [simpl; lia|].
  apply (resolve_inputs_unfilled_batch Sample.no_subjects Sample.empty_store ∅
           Sample.rows 5 "out" 2 false false _ ["ABC-RS1.cram"; "DEF-RS2.cram"]).
  - lia.
  - vm_compute. reflexivity.
  - simpl. lia.
Defined.

(** The file names of the sample batch. *)
Lemma resolve_inputs_filenames_witness :
  resolve_inputs Sample.no_subjects Sample.empty_store ∅ Sample.rows 3 "out" 2 false false
  = Ok (["s3://b/crams/ABC-RS1.cram"; "s3://b/crams/DEF-RS2.cram"],
        ["ABC-RS1.cram"; "DEF-RS2.cram"]) /\
  length ["ABC-RS1.cram"; "DEF-RS2.cram"]
  = length ["s3://b/crams/ABC-RS1.cram"; "s3://b/crams/DEF-RS2.cram"] /\
  Forall2 (fun loc name =>
             Py.contains name "/" = false /\
             exists dir, loc = dir +:+ name /\
                         (dir = EmptyString \/ exists d, dir = d +:+ "/"))
          ["s3://b/crams/ABC-RS1.cram"; "s3://b/crams/DEF-RS2.cram"]
          ["ABC-RS1.cram"; "DEF-RS2.cram"].
Proof.
  split; [vm_compute; reflexivity|].
  apply (resolve_inputs_filenames Sample.no_subjects Sample.empty_store ∅
           Sample.rows 3 "out" 2 false false).
  vm_compute. reflexivity.
Defined.


(** The sample manifest, failures excluded, in a directory without
    [failed.txt]. *)
Lemma resolve_inputs_missing_ledger_witness :
  (∅ : gmap string string) !! FAILED_TXT = None /\
  3 <> 0 /\ 2 <> 0 /\
  Forall (fun row => is_Some (row !! "Subject") /\ is_Some (row !! "location"))
         Sample.rows /\
  Exists (fun row => exists subject,
              row !! "Subject" = Some subject /\ subject ∉ (∅ : gset string))
         Sample.rows /\
  resolve_inputs Sample.no_subjects Sample.empty_store ∅ Sample.rows 3 "out" 2 true true
  = Raise FileNotFoundError.
Proof.
  assert (Hrows : Forall (fun row => is_Some (row !! "Subject") /\
                                     is_Some (row !! "location")) Sample.rows)
    by (repeat constructor; eexists; vm_compute; reflexivity).
  assert (Hex : Exists (fun row => exists subject,
                          row !! "Subject" = Some subject /\
                          subject ∉ (∅ : gset string)) Sample.rows).
  { left. exists "ABC-RS1". split; [vm_compute; reflexivity | apply not_elem_of_empty]. }
  split; [done|]. split; [lia|]. split; [lia|]. split; [done|]. split; [done|].
  apply (resolve_inputs_missing_ledger Sample.no_subjects Sample.empty_store ∅
           Sample.rows 3 "out" 2 true); [done | lia | lia | done | done].
Defined.

(** Three names in groups of two. *)
Lemma group_inputs_group_sizes_witness :
  0 < 2 /\
  exists ss gs idx,
    group_inputs Sample.cram_type Sample.names 2 = Ok (of_groups ss, of_groups gs, idx) /\
    Z.of_nat (length gs) = (Z.of_nat (length Sample.names) + 2 - 1) / 2 /\
    Forall (fun g => 0 < Z.of_nat (length g) <= 2) gs /\
    (forall j g, gs !! j = Some g -> (j + 1 < length gs)%nat ->
                 Z.of_nat (length g) = 2) /\
    (Z.of_nat (length Sample.names) mod 2 = 0 ->
     Forall (fun g => Z.of_nat (length g) = 2) gs).
Proof.
  split; [lia|]. apply (group_inputs_group_sizes Sample.cram_type Sample.names 2). lia.
Defined.

(** A group size of zero, and one of two. *)
Lemma group_inputs_raises_iff_zero_witness :
  group_inputs Sample.cram_type Sample.names 0 = Raise ValueError /\
  2 <> 0 /\
  exists r, group_inputs Sample.cram_type Sample.names 2 = Ok r.
Proof.
  split; [|split; [lia|]].
  - by apply (proj1 (group_inputs_raises_iff_zero Sample.cram_type Sample.names 0)).
  - apply (proj2 (group_inputs_raises_iff_zero Sample.cram_type Sample.names 2)). lia.
Defined.

(** The subjects of the sample groups, from their paths. *)
Lemma group_inputs_subjects_of_paths_witness :
  group_inputs Sample.cram_type Sample.names 2
  = Ok (of_groups [["a"; "b"]; ["c"]],
        of_groups [["crams/a.cram"; "crams/b.cram"]; ["crams/c.cram"]],
        Some (of_groups [["cramsidx/a.cram.crai"; "cramsidx/b.cram.crai"];
                         ["cramsidx/c.cram.crai"]])) /\
  basename (of_groups [["crams/a.cram"; "crams/b.cram"]; ["crams/c.cram"]])
  = of_groups [["a"; "b"]; ["c"]].
Proof.
  split; [vm_compute; reflexivity|].
  apply (group_inputs_subjects_of_paths Sample.cram_type Sample.names 2 _ _
           (Some (of_groups [["cramsidx/a.cram.crai"; "cramsidx/b.cram.crai"];
                             ["cramsidx/c.cram.crai"]]))).
  vm_compute. reflexivity.
Defined.

(** The sample batch, grouped by its two cores per instance. *)
Lemma batch_groups_are_full_witness :
  0 < 2 /\
  resolve_inputs Sample.no_subjects Sample.empty_store ∅ Sample.rows 3 "out" 2 false false
  = Ok (["s3://b/crams/ABC-RS1.cram"; "s3://b/crams/DEF-RS2.cram"],
        ["ABC-RS1.cram"; "DEF-RS2.cram"]) /\
  exists ss gs idx,
    group_inputs Sample.cram_type ["ABC-RS1.cram"; "DEF-RS2.cram"] 2
    = Ok (of_groups ss, of_groups gs, idx) /\
    Forall (fun g => Z.of_nat (length g) = 2) gs /\
    Z.of_nat (length gs) * 2
    = Z.of_nat (length ["s3://b/crams/ABC-RS1.cram"; "s3://b/crams/DEF-RS2.cram"]).
Proof.
  split; [lia|]. split; [vm_compute; reflexivity|].
  apply (batch_groups_are_full Sample.no_subjects Sample.cram_type Sample.empty_store ∅
           Sample.rows 3 "out" 2 false false).
  - lia.
  - vm_compute. reflexivity.
Defined.

(** The subject that the sample ledger lists. *)
Lemma file_in_failed_needs_stripped_subject_witness :
  file_in_failed Sample.ledger "DEF-RS2" = Ok true /\
  Py.strip "DEF-RS2" = "DEF-RS2".
Proof.
  split; [vm_compute; reflexivity|].
  apply (file_in_failed_needs_stripped_subject Sample.ledger "DEF-RS2").
  vm_compute. reflexivity.
Defined.

(** A second subject written after the first. *)
Lemma file_in_failed_after_append_witness :
  ends_lf ("DEF-RS2" +:+ Py.nl) = true /\
  no_newline "ABC-RS1" = true /\
  Py.strip "ABC-RS1" = "ABC-RS1" /\
  file_in_failed
    (<[ FAILED_TXT := ("DEF-RS2" +:+ Py.nl) +:+ ("ABC-RS1" +:+ Py.nl) ]> ∅) "ABC-RS1"
  = Ok true /\
  (forall other,
     file_in_failed (<[ FAILED_TXT := "DEF-RS2" +:+ Py.nl ]> ∅) other = Ok true ->
     file_in_failed
       (<[ FAILED_TXT := ("DEF-RS2" +:+ Py.nl) +:+ ("ABC-RS1" +:+ Py.nl) ]> ∅) other
     = Ok true).
Proof.
  split; [vm_compute; reflexivity|]. split; [vm_compute; reflexivity|].
  split; [vm_compute; reflexivity|].
  apply (file_in_failed_after_append ∅ ("DEF-RS2" +:+ Py.nl) "ABC-RS1");
    vm_compute; reflexivity.
Defined.

(** The job identifiers of the sample store, sets being iterated in the
    order of [elements]. *)
Lemma get_unique_job_ids_exactly_witness :
  (forall (X : gset string) x, x ∈ elements X <-> x ∈ X) /\
  (forall X : gset string, NoDup (elements X)) /\
  list_objects_v2 Sample.audit_store "out" "j/"
  = Some ["j/j.a.postrun.json"; "j/j.b.postrun.json"] /\
  exists job_ids,
    get_unique_job_ids_from_s3_bucket elements Sample.audit_store "out" "j/"
    = Ok job_ids /\
    NoDup job_ids /\
    forall job_id,
      job_id ∈ job_ids <->
      exists key, key ∈ ["j/j.a.postrun.json"; "j/j.b.postrun.json"] /\
                  Py.endswith key POSTRUN_JSON = true /\
                  job_id = Py.split_head key POSTRUN_JSON.
Proof.
  assert (Hiter : forall (X : gset string) x, x ∈ elements X <-> x ∈ X)
    by (intros X x; apply elem_of_elements).
  assert (Hnodup : forall X : gset string, NoDup (elements X))
    by (intros X; apply NoDup_elements).
  assert (Hlist : list_objects_v2 Sample.audit_store "out" "j/"
                  = Some ["j/j.a.postrun.json"; "j/j.b.postrun.json"])
    by (vm_compute; reflexivity).
  split; [done|]. split; [done|]. split; [done|].
  pose proof (get_unique_job_ids_exactly elements Sample.audit_store "out" "j/"
                Hiter Hnodup) as Hw.
  rewrite Hlist in Hw. exact Hw.
Defined.

(** The audit of the sample store over a ledger with a repeated line. *)
Lemma process_postrun_files_lines_witness :
  (forall (X : gset string) x, x ∈ elements X <-> x ∈ X) /\
  (forall X : gset string, NoDup (elements X)) /\
  ends_lf (default EmptyString (Sample2.runs_ledger !! FAILED_RUNS_TXT)) = true /\
  (forall job_id, job_id ∈ failed_job_ids_of Sample.audit_store "j" "out" ->
                  no_newline job_id = true) /\
  exists s3' fs' content',
    process_postrun_files elements Sample.audit_store Sample2.runs_ledger "j" "out"
    = Ok (s3', fs') /\
    fs' !! FAILED_RUNS_TXT = Some content' /\
    NoDup (Py.lines (Py.translate_newlines content')) /\
    forall line,
      line ∈ Py.lines (Py.translate_newlines content') <->
      line ∈ Py.lines (Py.translate_newlines
                         (default EmptyString (Sample2.runs_ledger !! FAILED_RUNS_TXT))) \/
      exists job_id, job_id ∈ failed_job_ids_of Sample.audit_store "j" "out" /\
                     line = job_id +:+ Py.nl.
Proof.
  assert (Hiter : forall (X : gset string) x, x ∈ elements X <-> x ∈ X)
    by (intros X x; apply elem_of_elements).
  assert (Hnodup : forall X : gset string, NoDup (elements X))
    by (intros X; apply NoDup_elements).
  assert (Hold : ends_lf (default EmptyString (Sample2.runs_ledger !! FAILED_RUNS_TXT))
                 = true) by (vm_compute; reflexivity).
  assert (Hclean : forall job_id,
            job_id ∈ failed_job_ids_of Sample.audit_store "j" "out" ->
            no_newline job_id = true).
  { intros job_id Hin. apply elem_of_elements in Hin.
    rewrite failed_job_ids_sample in Hin.
    apply list_elem_of_singleton in Hin as ->. vm_compute. reflexivity. }
  split; [done|]. split; [done|]. split; [done|]. split; [done|].
  by apply (process_postrun_files_lines elements Sample.audit_store
              Sample2.runs_ledger "j" "out").
Defined.

(** Two logs at the root, moved into the folder of the job. *)
Lemma move_logs_to_folder_keeps_bodies_witness :
  list_objects_v2 (put_object Sample2.root_logs "out" ("j" +:+ "/")) "out" ("j" +:+ ".")
  = Some ["j.a.log"; "j.b.log"] /\
  NoDup ["j.a.log"; "j.b.log"] /\
  Forall (fun k => Py.startswith k ("j" +:+ ".") = true) ["j.a.log"; "j.b.log"] /\
  forall file_name,
    file_name ∈ ["j.a.log"; "j.b.log"] ->
    get_object (move_logs_to_folder Sample2.root_logs "j" "out") "out"
      ("j" +:+ "/" +:+ file_name)
    = get_object Sample2.root_logs "out" file_name.
Proof.
  assert (Hlist : list_objects_v2 (put_object Sample2.root_logs "out" ("j" +:+ "/"))
                    "out" ("j" +:+ ".") = Some ["j.a.log"; "j.b.log"])
    by (vm_compute; reflexivity).
  assert (Hnodup : NoDup ["j.a.log"; "j.b.log"])
    by (apply (bool_decide_unpack _); vm_compute; exact I).
  assert (Hprefix : Forall (fun k => Py.startswith k ("j" +:+ ".") = true)
                           ["j.a.log"; "j.b.log"])
    by (repeat constructor; vm_compute; reflexivity).
  split; [done|]. split; [done|]. split; [done|].
  by apply (@move_logs_to_folder_keeps_bodies _ _ mem_s3_laws
              Sample2.root_logs "j" "out").
Defined.

(** Two logs in the folder of the job, moved to the root. *)
Lemma move_logs_to_root_keeps_bodies_witness :
  list_objects_v2 Sample2.folder_logs "out" ("j" +:+ "/" +:+ "j" +:+ ".")
  = Some ["j/j.a.log"; "j/j.b.log"] /\
  NoDup (map Py.last_segment ["j/j.a.log"; "j/j.b.log"]) /\
  Forall (fun k => Py.startswith k ("j" +:+ "/" +:+ "j" +:+ ".") = true)
         ["j/j.a.log"; "j/j.b.log"] /\
  forall file_name,
    file_name ∈ ["j/j.a.log"; "j/j.b.log"] ->
    get_object (move_logs_to_root Sample2.folder_logs "j" "out") "out"
      (Py.last_segment file_name)
    = get_object Sample2.folder_logs "out" file_name.
Proof.
  assert (Hlist : list_objects_v2 Sample2.folder_logs "out"
                    ("j" +:+ "/" +:+ "j" +:+ ".") = Some ["j/j.a.log"; "j/j.b.log"])
    by (vm_compute; reflexivity).
  assert (Hnodup : NoDup (map Py.last_segment ["j/j.a.log"; "j/j.b.log"]))
    by (apply (bool_decide_unpack _); vm_compute; exact I).
  assert (Hprefix : Forall (fun k => Py.startswith k ("j" +:+ "/" +:+ "j" +:+ ".") = true)
                           ["j/j.a.log"; "j/j.b.log"])
    by (repeat constructor; vm_compute; reflexivity).
  split; [done|]. split; [done|]. split; [done|].
  by apply (@move_logs_to_root_keeps_bodies _ _ mem_s3_laws
              Sample2.folder_logs "j" "out").
Defined.

(** The keys deleted for the three sample names. *)
Lemma remove_inputs_deletes_group_paths_witness :
  0 < 2 /\
  group_inputs Sample.cram_type Sample.names 2
  = Ok (of_groups [["a"; "b"]; ["c"]],
        of_groups [["crams/a.cram"; "crams/b.cram"]; ["crams/c.cram"]],
        Some (of_groups [["cramsidx/a.cram.crai"; "cramsidx/b.cram.crai"];
                         ["cramsidx/c.cram.crai"]])) /\
  exists keys,
    remove_inputs_from_file Sample.cram_type Sample.empty_store Sample.names "in"
    = foldl (fun s key => delete_object s "in" key) Sample.empty_store keys /\
    keys ≡ₚ flatten (of_groups [["crams/a.cram"; "crams/b.cram"]; ["crams/c.cram"]])
            ++ from_option flatten []
                 (Some (of_groups [["cramsidx/a.cram.crai"; "cramsidx/b.cram.crai"];
                                   ["cramsidx/c.cram.crai"]])).
Proof.
  split; [lia|]. split; [vm_compute; reflexivity|].
  apply (remove_inputs_deletes_group_paths Sample.cram_type Sample.empty_store
           Sample.names "in" 2 (of_groups [["a"; "b"]; ["c"]])).
  - lia.
  - vm_compute. reflexivity.
Defined.

(** ** The subject pattern *)

Lemma str_drop_app (pre rest : string) :
  Py.str_drop (String.length pre) (pre +:+ rest) = rest.
Proof. induction pre as [|c pre IH]; [by destruct rest | done]. Qed.

Lemma substring_app (m rest : string) :
  String.substring 0 (String.length m) (m +:+ rest) = m.
Proof.
  induction m as [|c m IH]; [by destruct rest|].
  rewrite str_app_cons. simpl. by rewrite IH.
Qed.

Lemma all_chars_app (p : ascii -> bool) (a b : string) :
  all_chars p (a +:+ b) = all_chars p a && all_chars p b.
Proof.
  induction a as [|c a IH]; [done|].
  rewrite str_app_cons. simpl. by rewrite IH, andb_assoc.
Qed.

(** Up to the span of a class, a string splits into a prefix in the
    class and what [str_drop] leaves. *)
Lemma span_split (p : ascii -> bool) (s : string) (a : nat) :
  (a <= Re.span p s)%nat ->
  exists pre,
    s = pre +:+ Py.str_drop a s /\ String.length pre = a /\ all_chars p pre = true.
Proof.
  revert s. induction a as [|a IH]; intros s Ha.
  - exists EmptyString. by destruct s.
  - destruct s as [|c r]; simpl in Ha; [lia|].
    destruct (p c) eqn:Hc; [|lia].
    destruct (IH r ltac:(lia)) as (pre & Hr & Hlen & Hall).
    exists (String c pre). split; [|split].
    + rewrite str_app_cons. cbn [Py.str_drop]. by rewrite <- Hr.
    + simpl. by rewrite Hlen.
    + simpl. by rewrite Hc, Hall.
Qed.

Lemma digits_end_split (t : string) (d : nat) :
  Re.digits_end t = Some d ->
  exists d0 c rest,
    t = (d0 +:+ String c EmptyString) +:+ rest /\
    String.length (d0 +:+ String c EmptyString) = d /\
    all_chars Re.is_digit_hyphen d0 = true /\
    Re.is_digit_hyphen c = true /\ Re.is_hyphen c = false.
Proof.
  revert d. induction t as [|x r IH]; intros d; simpl; [done|].
  destruct (Re.is_digit_hyphen x) eqn:Hx; [|done].
  destruct (Re.digits_end r) as [d'|].
  - intros [= <-]. destruct (IH d' eq_refl) as (d0 & c & rest & -> & <- & Hall & Hc & Hh).
    exists (String x d0), c, rest. simpl. by rewrite Hx, Hall.
  - destruct (Re.is_hyphen x) eqn:Hh; [done|]. intros [= <-].
    by exists EmptyString, x, r.
Qed.

Lemma try_prefix_split (s : string) (a n : nat) :
  Re.try_prefix s a = Some n ->
  exists a' t d,
    (1 <= a' <= a)%nat /\
    Py.str_drop a' s = "RS" +:+ t /\
    Re.digits_end t = Some d /\
    n = (a' + 2 + d)%nat.
Proof.
  induction a as [|a IH]; [done|].
  cbn [Re.try_prefix]. cbv zeta.
  destruct (Py.startswith (Py.str_drop (S a) s) "RS") eqn:Hrs.
  - apply startswith_inv in Hrs as [t Ht]. rewrite Ht.
    change (Py.str_drop 2 ("RS" +:+ t)) with t.
    destruct (Re.digits_end t) as [d|] eqn:Hd.
    + intros [= <-]. exists (S a), t, d. split; [lia|]. done.
    + intros Hn. destruct (IH Hn) as (a' & t' & d' & ? & ? & ? & ?).
      exists a', t', d'. split; [lia|]. done.
  - intros Hn. destruct (IH Hn) as (a' & t' & d' & ? & ? & ? & ?).
    exists a', t', d'. split; [lia|]. done.
Qed.

(** What a match at the start of a string is made of. *)
Lemma match_at_split (s : string) (n : nat) :
  Re.match_at s = Some n ->
  exists a d0 c rest,
    s = (a +:+ "RS" +:+ d0 +:+ String c EmptyString) +:+ rest /\
    String.substring 0 n s = a +:+ "RS" +:+ d0 +:+ String c EmptyString /\
    a <> EmptyString /\
    all_chars Re.is_alpha_hyphen a = true /\
    all_chars Re.is_digit_hyphen d0 = true /\
    Re.is_digit_hyphen c = true /\ Re.is_hyphen c = false.
Proof.
  unfold Re.match_at. intros Hn.
  apply try_prefix_split in Hn as (a' & t & d & Ha & Hdrop & Hd & ->).
  destruct (span_split Re.is_alpha_hyphen s a' ltac:(lia)) as (a & Hs & Hlen & Hall).
  apply digits_end_split in Hd as (d0 & c & rest & -> & Hd & Hall0 & Hc & Hh).
  rewrite Hdrop in Hs.
  assert (Heq : s = (a +:+ "RS" +:+ d0 +:+ String c EmptyString) +:+ rest).
  { rewrite Hs. by rewrite !str_app_assoc. }
  exists a, d0, c, rest. split; [done|]. split.
  - rewrite Heq at 1.
    replace (a' + 2 + d)%nat
      with (String.length (a +:+ "RS" +:+ d0 +:+ String c EmptyString)).
    + apply substring_app.
    + rewrite !str_app_length in *. simpl in *. lia.
  - split; [|done]. intros ->. simpl in Hlen. lia.
Qed.

Lemma findall_skip_elem (skip : nat) (s m : string) :
  m ∈ Re.findall_skip skip s ->
  exists pre post n,
    s = pre +:+ post /\ Re.match_at post = Some n /\ m = String.substring 0 n post.
Proof.
  revert skip. induction s as [|c r IH]; intros skip; [by intros ?%elem_of_nil|].
  cbn [Re.findall_skip].
  assert (Hlater : forall k, m ∈ Re.findall_skip k r ->
            exists pre post n,
              String c r = pre +:+ post /\ Re.match_at post = Some n /\
              m = String.substring 0 n post).
  { intros k Hk. destruct (IH k Hk) as (pre & post & n & -> & Hm & ->).
    by exists (String c pre), post, n. }
  destruct skip as [|k]; [|apply Hlater].
  destruct (Re.match_at (String c r)) as [n|] eqn:Hm; [|apply Hlater].
  intros [->|Hin]%elem_of_cons; [|by eapply Hlater].
  by exists EmptyString, (String c r), n.
Qed.

(** X20: every subject that the pattern finds is a part of the text made
    of one or more letters and hyphens, then [RS], then digits and
    hyphens the last of which is a digit. *)
Theorem extract_subjects_shape (text subject : string) :
  subject ∈ Re.extract_subjects text ->
  exists pre post a d0 c,
    text = pre +:+ subject +:+ post /\
    subject = a +:+ "RS" +:+ d0 +:+ String c EmptyString /\
    a <> EmptyString /\
    all_chars Re.is_alpha_hyphen a = true /\
    all_chars Re.is_digit_hyphen d0 = true /\
    Re.is_digit_hyphen c = true /\ Re.is_hyphen c = false.
Proof.
  intros Hin. apply findall_skip_elem in Hin as (pre & post & n & -> & Hm & ->).
  apply match_at_split in Hm as (a & d0 & c & rest & Hpost & Hsub & ? & ? & ? & ? & ?).
  exists pre, rest, a, d0, c. split; [|done].
  by rewrite Hsub, <- Hpost.
Qed.

(** The pattern on an archive key and on a key without [RS]. *)
Example extract_subjects_samples :
  Re.extract_subjects "/mnt/data1/out/ABC-RS1.tar" = ["ABC-RS1"] /\
  Re.extract_subjects "/mnt/data1/out/ADNI-RS-12-34-.tar" = ["ADNI-RS-12-34"] /\
  Re.extract_subjects "aRS9bRS8" = ["aRS9"; "bRS8"] /\
  Re.extract_subjects "/mnt/data1/out/sample.tar" = [].
Proof. vm_compute. done. Qed.

(** A key found by the pattern. *)
Lemma extract_subjects_shape_witness :
  "ABC-RS1" ∈ Re.extract_subjects "/mnt/data1/out/ABC-RS1.tar" /\
  exists pre post a d0 c,
    "/mnt/data1/out/ABC-RS1.tar" = pre +:+ "ABC-RS1" +:+ post /\
    "ABC-RS1" = a +:+ "RS" +:+ d0 +:+ String c EmptyString /\
    a <> EmptyString /\
    all_chars Re.is_alpha_hyphen a = true /\
    all_chars Re.is_digit_hyphen d0 = true /\
    Re.is_digit_hyphen c = true /\ Re.is_hyphen c = false.
Proof.
  assert (Hin : "ABC-RS1" ∈ Re.extract_subjects "/mnt/data1/out/ABC-RS1.tar")
    by (vm_compute; left).
  split; [done|].
  by apply (extract_subjects_shape "/mnt/data1/out/ABC-RS1.tar" "ABC-RS1").
Defined.

(** X21: with the pattern as extractor, only a subject of the pattern's
    form can be in the completed set: letters and hyphens, then [RS],
    then digits and hyphens ending in a digit; and it is a part of a
    listed key that ends in [.tar]. *)
Theorem completed_subjects_have_shape {S : Type} `{S3Client S} (s3 : S)
    (outbucket prefix subject : string) :
  subject ∈ get_subject_completed_set Re.extract_subjects s3 outbucket prefix ->
  exists contents key pre post a d0 c,
    list_objects_v2 s3 outbucket prefix = Some contents /\
    key ∈ contents /\ Py.endswith key ".tar" = true /\
    key = pre +:+ subject +:+ post /\
    subject = a +:+ "RS" +:+ d0 +:+ String c EmptyString /\
    a <> EmptyString /\
    all_chars Re.is_alpha_hyphen a = true /\
    all_chars Re.is_digit_hyphen d0 = true /\
    Re.is_digit_hyphen c = true /\ Re.is_hyphen c = false.
Proof.
  unfold get_subject_completed_set.
  destruct (list_objects_v2 s3 outbucket prefix) as [contents|];
    [|by intros ?%not_elem_of_empty].
  rewrite completed_fold_elem.
  intros [?%not_elem_of_empty|(key & Hkey & Htar & Hin)]; [done|].
  apply findall_skip_elem in Hin as (pre & post & n & -> & Hm & ->).
  apply match_at_split in Hm as (a & d0 & c & rest & Hpost & Hsub & ? & ? & ? & ? & ?).
  exists contents, (pre +:+ post), pre, rest, a, d0, c.
  split; [done|]. split; [done|]. split; [done|]. split; [|done].
  by rewrite Hsub, <- Hpost.
Qed.

(** A store with one archive of a subject, and the manifest scanned
    against it: the completed subject is skipped. *)
Example resolve_inputs_skips_completed :
  elements (get_subject_completed_set Re.extract_subjects
              [("out", "/mnt/data1/out/DEF-RS2.tar", EmptyString)]
              "out" "/mnt/data1/out/") = ["DEF-RS2"] /\
  resolve_inputs Re.extract_subjects
    [("out", "/mnt/data1/out/DEF-RS2.tar", EmptyString)] ∅ Sample.rows 3 "out" 1
    false false
  = Ok (["s3://b/crams/ABC-RS1.cram"; "s3://b/crams/GHI-RS3.cram"],
        ["ABC-RS1.cram"; "GHI-RS3.cram"]).
Proof. split; vm_compute; reflexivity. Qed.

(** The archive of the subject [DEF-RS2]. *)
Lemma completed_subjects_have_shape_witness :
  "DEF-RS2" ∈ get_subject_completed_set Re.extract_subjects
                [("out", "/mnt/data1/out/DEF-RS2.tar", EmptyString)]
                "out" "/mnt/data1/out/" /\
  exists contents key pre post a d0 c,
    list_objects_v2 [("out", "/mnt/data1/out/DEF-RS2.tar", EmptyString)]
      "out" "/mnt/data1/out/" = Some contents /\
    key ∈ contents /\ Py.endswith key ".tar" = true /\
    key = pre +:+ "DEF-RS2" +:+ post /\
    "DEF-RS2" = a +:+ "RS" +:+ d0 +:+ String c EmptyString /\
    a <> EmptyString /\
    all_chars Re.is_alpha_hyphen a = true /\
    all_chars Re.is_digit_hyphen d0 = true /\
    Re.is_digit_hyphen c = true /\ Re.is_hyphen c = false.
Proof.
  assert (Hin : "DEF-RS2" ∈ get_subject_completed_set Re.extract_subjects
                  [("out", "/mnt/data1/out/DEF-RS2.tar", EmptyString)]
                  "out" "/mnt/data1/out/")
    by (apply elem_of_elements; vm_compute; left).
  split; [done|].
  by apply (completed_subjects_have_shape
              [("out", "/mnt/data1/out/DEF-RS2.tar", EmptyString)]
              "out" "/mnt/data1/out/" "DEF-RS2").
Defined.

(** ** A manifest without a column *)

Section Columns.

Context {S : Type} `{S3Client S}.
Variable extract_subjects : string -> list string.

(** A part of the manifest that is scanned without filling the batch is
    followed by the scan of the rest. *)
Lemma scan_rows_app fs cs b ef pre rest acc0 acc :
  scan_rows fs cs b ef pre acc0 = Ok acc ->
  Z.of_nat (length acc) <> b ->
  scan_rows fs cs b ef (pre ++ rest) acc0 = scan_rows fs cs b ef rest acc.
Proof.
  revert acc0. induction pre as [|row pre IH]; intros acc0; simpl.
  - by intros [= <-].
  - intros Hb Hne. apply bind_ok in Hb as (acc1 & Hv & Hrest).
    rewrite Hv. simpl.
    destruct (Z.eqb_spec (Z.of_nat (length acc1)) b) as [Heq|_]; [|by apply IH].
    injection Hrest as <-. done.
Qed.


End Columns.

